(** * Codex collaborative editor: the session synchronisation server

    A shallow embedding of [collab-editor/server/socket-server.js] and of the
    [AIService] class it drives (rate limiter and streamed generation).

    The server keeps a handful of global [Map]s and reacts to named socket
    events.  Every handler is embedded as a function from the server state
    to a new state and the list of effects it issues (emits, the persistence
    request, the call to the generative backend).  A handler invocation is
    one step: Node runs them one at a time, and the store query awaited by
    [getDocumentState] is answered inside the step.  The one handler that
    stays suspended across events is [ai-generate], whose [for await] loop
    is resumed by the backend once per chunk; it is split accordingly.

    Numbers are JavaScript numbers used as counters and millisecond
    timestamps; they are integers far below 2^53 and are embedded as [Z].
    [position] and [selection] are relayed verbatim and are kept opaque. *)

From stdpp Require Import gmap strings list fin_maps.
From Stdlib Require Import ZArith Lia.

Local Open Scope string_scope.
Local Open Scope list_scope.

(** ** JavaScript containers *)

(** A JS [Set] of strings: insertion ordered, no duplicates. *)
Module JsSet.
Definition has (xs : list string) (x : string) : bool :=
  bool_decide (x ∈ xs).

Definition add (xs : list string) (x : string) : list string :=
  if has xs x then xs else xs ++ [x].

Definition delete (xs : list string) (x : string) : list string :=
  filter (λ y, y ≠ x) xs.

Definition size (xs : list string) : Z := Z.of_nat (length xs).
End JsSet.

(** A JS [Map] with string keys whose iteration order is observable
    ([forEach] in the disconnect handler): entries in insertion order,
    [set] on a present key keeps its place. *)
Module JsMap.
Section with_value.
Context {V : Type}.

Fixpoint get (m : list (string * V)) (k : string) : option V :=
  match m with
  | [] => None
  | (k', v) :: r => if decide (k' = k) then Some v else get r k
  end.

Definition has (m : list (string * V)) (k : string) : bool :=
  match get m k with Some _ => true | None => false end.

Fixpoint set (m : list (string * V)) (k : string) (v : V)
  : list (string * V) :=
  match m with
  | [] => [(k, v)]
  | (k', v') :: r =>
      if decide (k' = k) then (k, v) :: r else (k', v') :: set r k v
  end.

Definition delete (m : list (string * V)) (k : string)
  : list (string * V) :=
  filter (λ e, e.1 ≠ k) m.

Definition keys (m : list (string * V)) : list string := m.*1.
End with_value.
End JsMap.

(** ** Data model *)

(** Opaque JSON payloads relayed without inspection. *)
Definition JsValue := string.

(** [documentCache] values: [{ content, lastModified, version }]. *)
Record DocumentState := {
  content : string;
  lastModified : Z;
  version : Z
}.

(** [userMetadata] values: [{ username, color, documentId }]. *)
Record UserMeta := {
  username : string;
  color : string;
  documentId : string
}.

(** [rateLimits] values: [{ count, resetTime }]. *)
Record RateLimit := {
  count : Z;
  resetTime : Z
}.

(** The fields of [AIService] that survive between calls. *)
Record AIService := {
  rateLimits : gmap string RateLimit
}.

Definition MAX_REQUESTS_PER_MINUTE : Z := 10.

(** The argument of [generateCodeStream]. *)
Record GenData := {
  code : JsValue;
  language : JsValue;
  cursorPosition : JsValue;
  userPrompt : JsValue;
  action : string
}.

(** An element of a [users-update] list. *)
Record UserEntry := {
  ue_socketId : string;
  ue_username : string;
  ue_color : string
}.

(** Outbound events with their payloads. *)
Inductive Message :=
| document_state (c : string) (v : Z)
| receive_changes (c : string) (v : Z) (from : string)
| user_count_update (n : Z)
| users_update (users : list UserEntry)
| cursor_update (socketId uname ucolor : string) (position selection : JsValue)
| cursor_remove (socketId : string)
| error (message : string)
| ai_chunk (chunk : string)
| ai_complete
| ai_error (message : string).

(** Who an emit is addressed to: [socket.emit], [io.to(room).emit],
    [socket.to(room).emit]. *)
Inductive Target :=
| to_socket (s : string)
| io_to (room : string)
| socket_to (s room : string).

Inductive Effect :=
| Emit (t : Target) (m : Message)
(** [supabase.from('documents').update({content}).eq('id', id)], not awaited *)
| Persist (docId : string) (c : string)
(** [this.model.generateContentStream(this.buildPrompt(data))] *)
| GenerateContentStream (data : GenData).

(** The server state: the module-level maps of socket-server.js, the
    [aiService] singleton ([None] when no API key is configured), and the
    collaborators the handlers read: socket.io's per-socket room sets
    ([socket.rooms]), the [documents] table of the store (a row's content
    may be null; a row changes when a persistence request completes),
    and the owners of the [ai-generate] handlers currently suspended in
    their [for await] loop. *)
Record State := {
  documentCache : gmap string DocumentState;
  documentUsers : list (string * list string);
  userMetadata : gmap string UserMeta;
  aiService : option AIService;
  sids : gmap string (list string);
  documents : gmap string (option string);
  generators : list string
}.

Definition initial (ai : bool) (docs : gmap string (option string)) : State :=
  {| documentCache := ∅; documentUsers := []; userMetadata := ∅;
     aiService := if ai then Some {| rateLimits := ∅ |} else None;
     sids := ∅; documents := docs; generators := [] |}.

Definition with_documentCache (c : gmap string DocumentState) (st : State) :=
  {| documentCache := c; documentUsers := documentUsers st;
     userMetadata := userMetadata st; aiService := aiService st;
     sids := sids st; documents := documents st;
     generators := generators st |}.

Definition with_documentUsers (u : list (string * list string)) (st : State) :=
  {| documentCache := documentCache st; documentUsers := u;
     userMetadata := userMetadata st; aiService := aiService st;
     sids := sids st; documents := documents st;
     generators := generators st |}.

Definition with_userMetadata (m : gmap string UserMeta) (st : State) :=
  {| documentCache := documentCache st; documentUsers := documentUsers st;
     userMetadata := m; aiService := aiService st;
     sids := sids st; documents := documents st;
     generators := generators st |}.

Definition with_aiService (a : option AIService) (st : State) :=
  {| documentCache := documentCache st; documentUsers := documentUsers st;
     userMetadata := userMetadata st; aiService := a;
     sids := sids st; documents := documents st;
     generators := generators st |}.

Definition with_sids (r : gmap string (list string)) (st : State) :=
  {| documentCache := documentCache st; documentUsers := documentUsers st;
     userMetadata := userMetadata st; aiService := aiService st;
     sids := r; documents := documents st;
     generators := generators st |}.

Definition with_documents (d : gmap string (option string)) (st : State) :=
  {| documentCache := documentCache st; documentUsers := documentUsers st;
     userMetadata := userMetadata st; aiService := aiService st;
     sids := sids st; documents := d;
     generators := generators st |}.

Definition with_generators (g : list string) (st : State) :=
  {| documentCache := documentCache st; documentUsers := documentUsers st;
     userMetadata := userMetadata st; aiService := aiService st;
     sids := sids st; documents := documents st;
     generators := g |}.

(** ** socket.io rooms *)

(** [socket.rooms] *)
Definition socket_rooms (st : State) (s : string) : list string :=
  default [] (sids st !! s).

(** [socket.join(room)] *)
Definition socket_join (s room : string) (st : State) : State :=
  with_sids (<[s := JsSet.add (socket_rooms st s) room]> (sids st)) st.

(** [socket.leave(room)] *)
Definition socket_leave (s room : string) (st : State) : State :=
  match sids st !! s with
  | Some rooms => with_sids (<[s := JsSet.delete rooms room]> (sids st)) st
  | None => st
  end.

(** A socket is connected from its [connection] event to its [disconnect]
    event; socket.io keeps its room set exactly that long. *)
Definition connected (st : State) (s : string) : bool :=
  match sids st !! s with Some _ => true | None => false end.

(** Whether socket [s] is handed an emit addressed to [t].  socket.io
    writes nothing to a socket whose connection is closed. *)
Definition receives (st : State) (t : Target) (s : string) : bool :=
  match t with
  | to_socket s' => bool_decide (s = s') && connected st s
  | io_to room => JsSet.has (socket_rooms st s) room
  | socket_to s' room =>
      JsSet.has (socket_rooms st s) room && negb (bool_decide (s = s'))
  end.

(** ** Document state cache *)

(** [getDocumentState(documentId)]: the cached state, or the row of the
    store cached at version 1, or null when the query reports an error (no
    such row). *)
Definition getDocumentState (st : State) (docId : string) (now : Z)
  : option DocumentState * State :=
  match documentCache st !! docId with
  | Some state => (Some state, st)
  | None =>
      match documents st !! docId with
      | None => (None, st)
      | Some data_content =>
          let state := {| content := default "" data_content;
                          lastModified := now; version := 1 |} in
          (Some state, with_documentCache (<[docId := state]> (documentCache st)) st)
      end
  end.

(** [updateDocumentState(documentId, newContent, socketId)] *)
Definition updateDocumentState (st : State) (docId newContent socketId : string)
    (now : Z) : bool * State * list Effect :=
  match documentCache st !! docId with
  | None => (false, st, [])
  | Some state =>
      let state' := {| content := newContent; lastModified := now;
                       version := version state + 1 |} in
      (true, with_documentCache (<[docId := state']> (documentCache st)) st,
       [Persist docId newContent])
  end.

(** ** Room registry helpers *)

(** [Array.from(members).map(sid => meta ? {...} : null).filter(Boolean)] *)
Definition user_list (meta : gmap string UserMeta) (members : list string)
  : list UserEntry :=
  omap (λ sid,
          match meta !! sid with
          | Some m => Some {| ue_socketId := sid; ue_username := username m;
                              ue_color := color m |}
          | None => None
          end) members.

(** The body of the [rooms.forEach] of [join-document] for one room. *)
Definition leave_previous_room (s : string) (st : State) (room : string)
  : State :=
  if decide (room ≠ s) then
    let st := socket_leave s room st in
    match JsMap.get (documentUsers st) room with
    | Some users =>
        let users' := JsSet.delete users s in
        let st := with_documentUsers (JsMap.set (documentUsers st) room users') st in
        if decide (JsSet.size users' = 0%Z) then
          with_documentCache (delete room (documentCache st))
            (with_documentUsers (JsMap.delete (documentUsers st) room) st)
        else st
    | None => st
    end
  else st.

(** [Array.from(socket.rooms).forEach(...)]: the implicit leave. *)
Definition leave_previous_rooms (s : string) (st : State) : State :=
  foldl (leave_previous_room s) st (socket_rooms st s).

(** ** Event handlers *)

(** [socket.on('join-document', ...)] *)
Definition join_document (st : State) (s docId : string) (now : Z)
  : State * list Effect :=
  let st := leave_previous_rooms s st in
  let st := socket_join s docId st in
  let st :=
    if JsMap.has (documentUsers st) docId then st
    else with_documentUsers (JsMap.set (documentUsers st) docId []) st in
  let st :=
    with_documentUsers
      (JsMap.set (documentUsers st) docId
         (JsSet.add (default [] (JsMap.get (documentUsers st) docId)) s)) st in
  let '(state, st) := getDocumentState st docId now in
  let sent :=
    match state with
    | Some state =>
        [Emit (to_socket s) (document_state (content state) (version state))]
    | None => []
    end in
  let userCount := JsSet.size (default [] (JsMap.get (documentUsers st) docId)) in
  (st, sent ++ [Emit (io_to docId) (user_count_update userCount)]).

(** [socket.on('send-changes', ...)].  The [state] the handler holds is the
    cached object itself, which [updateDocumentState] mutates in place: the
    broadcast reads the updated fields. *)
Definition send_changes (st : State) (s docId newContent : string) (now : Z)
  : State * list Effect :=
  let '(state, st) :=
    match documentCache st !! docId with
    | Some state => (Some state, st)
    | None => getDocumentState st docId now
    end in
  match state with
  | None => (st, [Emit (to_socket s) (error "Document not found")])
  | Some _ =>
      let '(success, st, eff) := updateDocumentState st docId newContent s now in
      if success then
        match documentCache st !! docId with
        | Some state =>
            (st, eff ++ [Emit (io_to docId)
                           (receive_changes (content state) (version state) s)])
        | None => (st, eff)
        end
      else (st, eff)
  end.

(** [socket.on('request-sync', ...)] *)
Definition request_sync (st : State) (s docId : string) (now : Z)
  : State * list Effect :=
  let '(state, st) := getDocumentState st docId now in
  match state with
  | Some state =>
      (st, [Emit (to_socket s) (document_state (content state) (version state))])
  | None => (st, [])
  end.

(** [socket.on('set-user-identity', ...)] *)
Definition set_user_identity (st : State) (s docId uname ucolor : string)
  : State * list Effect :=
  let st :=
    with_userMetadata
      (<[s := {| username := uname; color := ucolor; documentId := docId |}]>
         (userMetadata st)) st in
  let users :=
    user_list (userMetadata st)
      (default [] (JsMap.get (documentUsers st) docId)) in
  (st, [Emit (io_to docId) (users_update users)]).

(** [socket.on('cursor-move', ...)] *)
Definition cursor_move (st : State) (s docId : string)
    (position selection : JsValue) : State * list Effect :=
  match userMetadata st !! s with
  | Some metadata =>
      (st, [Emit (socket_to s docId)
              (cursor_update s (username metadata) (color metadata)
                 position selection)])
  | None => (st, [])
  end.

(** ** Generation service *)

(** [AIService.checkRateLimit(userId)] *)
Definition checkRateLimit (svc : AIService) (userId : string) (now : Z)
  : bool * AIService :=
  let fresh :=
    {| rateLimits :=
         <[userId := {| count := 1; resetTime := now + 60000 |}]>
           (rateLimits svc) |} in
  match rateLimits svc !! userId with
  | None => (true, fresh)
  | Some userLimit =>
      if decide (now > resetTime userLimit)%Z then (true, fresh)
      else if decide (count userLimit >= MAX_REQUESTS_PER_MINUTE)%Z then
        (false, svc)
      else
        (true,
         {| rateLimits :=
              <[userId := {| count := count userLimit + 1;
                             resetTime := resetTime userLimit |}]>
                (rateLimits svc) |})
  end.

(** The message of the error thrown on a refused request. *)
Definition rate_limit_message : string :=
  "Rate limit exceeded. Please try again in a minute.".

(** [AIService.generateCodeStream(data, userId)] up to its first
    suspension: either the rate-limit error is thrown, or the prompt is
    built and the backend stream is requested. *)
Definition generateCodeStream (svc : AIService) (data : GenData)
    (userId : string) (now : Z) : AIService * (string + list Effect) :=
  let '(ok, svc) := checkRateLimit svc userId now in
  if ok then (svc, inr [GenerateContentStream data])
  else (svc, inl rate_limit_message).

(** [AIService.cleanupRateLimits()] *)
Definition cleanupRateLimits (svc : AIService) (now : Z) : AIService :=
  {| rateLimits :=
       filter (λ kv : string * RateLimit, ¬ (now > resetTime kv.2)%Z)
         (rateLimits svc) |}.

(** The payload of an [ai-generate] event. *)
Record GenRequest := {
  rq_documentId : string;
  rq_code : JsValue;
  rq_language : JsValue;
  rq_cursorPosition : JsValue;
  rq_userPrompt : JsValue;
  rq_action : option string
}.

(** The object literal handed to [generateCodeStream], with
    [action: action || 'complete']. *)
Definition gen_data (rq : GenRequest) : GenData :=
  {| code := rq_code rq; language := rq_language rq;
     cursorPosition := rq_cursorPosition rq; userPrompt := rq_userPrompt rq;
     action := match rq_action rq with
               | Some a => if decide (a = "") then "complete" else a
               | None => "complete"
               end |}.

(** [socket.on('ai-generate', ...)] up to the first suspension of its
    [for await] loop.  When the generator gets past the rate limiter the
    handler stays suspended and is recorded in [generators]. *)
Definition ai_generate (st : State) (s : string) (rq : GenRequest) (now : Z)
  : State * list Effect :=
  match userMetadata st !! s with
  | None => (st, [Emit (to_socket s) (ai_error "User not authenticated")])
  | Some metadata =>
      match aiService st with
      | None =>
          (st, [Emit (to_socket s) (ai_error "AI service is not available")])
      | Some svc =>
          match generateCodeStream svc (gen_data rq) s now with
          | (svc, inl message) =>
              (with_aiService (Some svc) st,
               [Emit (to_socket s) (ai_error message)])
          | (svc, inr eff) =>
              (with_generators (generators st ++ [s])
                 (with_aiService (Some svc) st), eff)
          end
      end
  end.

(** What the backend hands to a suspended generator. *)
Inductive BackendItem :=
| Chunk (text : string)
| StreamEnd
| StreamError (message : string).

(** Resuming the [k]-th suspended [ai-generate] handler: a chunk is
    yielded and emitted on the handler's socket and the loop suspends
    again; exhaustion emits [ai-complete]; a backend error is rethrown as
    ["AI generation failed: ..."] and emitted as [ai-error]. *)
Definition ai_resume (st : State) (k : nat) (item : BackendItem)
  : State * list Effect :=
  match generators st !! k with
  | None => (st, [])
  | Some s =>
      match item with
      | Chunk text => (st, [Emit (to_socket s) (ai_chunk text)])
      | StreamEnd =>
          (with_generators (delete k (generators st)) st,
           [Emit (to_socket s) ai_complete])
      | StreamError message =>
          (with_generators (delete k (generators st)) st,
           [Emit (to_socket s) (ai_error ("AI generation failed: " +:+ message))])
      end
  end.

(** ** Leaving *)

(** The [documentUsers.forEach] of the disconnect handler over the entries
    still to visit; deleting the visited entry does not disturb the
    iteration. *)
Fixpoint disconnect_rooms (s : string) (hasMeta : bool)
    (meta : gmap string UserMeta) (entries : list (string * list string))
    (cache : gmap string DocumentState)
  : list (string * list string) * gmap string DocumentState * list Effect :=
  match entries with
  | [] => ([], cache, [])
  | (docId, users) :: rest =>
      if JsSet.has users s then
        let users' := JsSet.delete users s in
        let userCount := JsSet.size users' in
        let eff :=
          [Emit (io_to docId) (user_count_update userCount);
           Emit (io_to docId) (users_update (user_list meta users'))]
          ++ (if hasMeta then [Emit (io_to docId) (cursor_remove s)] else []) in
        if decide (JsSet.size users' = 0%Z) then
          let '(rest', cache', eff') :=
            disconnect_rooms s hasMeta meta rest (delete docId cache) in
          (rest', cache', eff ++ eff')
        else
          let '(rest', cache', eff') :=
            disconnect_rooms s hasMeta meta rest cache in
          ((docId, users') :: rest', cache', eff ++ eff')
      else
        let '(rest', cache', eff') :=
          disconnect_rooms s hasMeta meta rest cache in
        ((docId, users) :: rest', cache', eff')
  end.

(** [socket.on('disconnect', ...)].  socket.io has already taken the
    socket out of every room when the event fires. *)
Definition disconnect (st : State) (s : string) : State * list Effect :=
  let st := with_sids (delete s (sids st)) st in
  let hasMeta :=
    match userMetadata st !! s with Some _ => true | None => false end in
  let '(users, cache, eff) :=
    disconnect_rooms s hasMeta (userMetadata st) (documentUsers st)
      (documentCache st) in
  (with_userMetadata (delete s (userMetadata st))
     (with_documentCache cache (with_documentUsers users st)), eff).

(** [socket.on('leave-document', ...)] *)
Definition leave_document (st : State) (s docId : string)
  : State * list Effect :=
  let st := socket_leave s docId st in
  let '(st, eff) :=
    match JsMap.get (documentUsers st) docId with
    | Some users =>
        let users' := JsSet.delete users s in
        let st := with_documentUsers (JsMap.set (documentUsers st) docId users') st in
        let userCount := JsSet.size users' in
        let eff :=
          [Emit (io_to docId) (user_count_update userCount);
           Emit (io_to docId) (users_update (user_list (userMetadata st) users'));
           Emit (io_to docId) (cursor_remove s)] in
        if decide (userCount = 0%Z) then
          (with_documentCache (delete docId (documentCache st))
             (with_documentUsers (JsMap.delete (documentUsers st) docId) st),
           eff)
        else (st, eff)
    | None => (st, [])
    end in
  (with_userMetadata (delete s (userMetadata st)) st, eff).

(** ** The event loop *)

Inductive Event :=
| Connect (s : string)
| JoinDocument (s docId : string) (now : Z)
| SendChanges (s docId newContent : string) (now : Z)
| RequestSync (s docId : string) (now : Z)
| SetUserIdentity (s docId uname ucolor : string)
| CursorMove (s docId : string) (position selection : JsValue)
| AiGenerate (s : string) (rq : GenRequest) (now : Z)
| Backend (k : nat) (item : BackendItem)
| Disconnect (s : string)
| LeaveDocument (s docId : string)
| CleanupTick (now : Z)
| StoreWritten (docId c : string).

(** [io.on('connection', ...)]: socket.io gives the socket a fresh id and
    puts it in the room of that name. *)
Definition connect (st : State) (s : string) : State * list Effect :=
  match sids st !! s with
  | Some _ => (st, [])
  | None => (with_sids (<[s := [s]]> (sids st)) st, [])
  end.

(** The [setInterval] callback installed by [getAIService]. *)
Definition cleanup_tick (st : State) (now : Z) : State * list Effect :=
  match aiService st with
  | Some svc => (with_aiService (Some (cleanupRateLimits svc now)) st, [])
  | None => (st, [])
  end.

(** The store completes a persistence request issued by
    [updateDocumentState]: the row, when there is one, takes the content.
    The handlers never wait for this and only log its outcome. *)
Definition store_written (st : State) (docId c : string)
  : State * list Effect :=
  match documents st !! docId with
  | Some _ => (with_documents (<[docId := Some c]> (documents st)) st, [])
  | None => (st, [])
  end.

Definition handle (st : State) (ev : Event) : State * list Effect :=
  match ev with
  | Connect s => connect st s
  | JoinDocument s docId now => join_document st s docId now
  | SendChanges s docId c now => send_changes st s docId c now
  | RequestSync s docId now => request_sync st s docId now
  | SetUserIdentity s docId uname ucolor =>
      set_user_identity st s docId uname ucolor
  | CursorMove s docId position selection =>
      cursor_move st s docId position selection
  | AiGenerate s rq now => ai_generate st s rq now
  | Backend k item => ai_resume st k item
  | Disconnect s => disconnect st s
  | LeaveDocument s docId => leave_document st s docId
  | CleanupTick now => cleanup_tick st now
  | StoreWritten docId c => store_written st docId c
  end.

(** Events handled in arrival order, with the effects of each. *)
Fixpoint run (st : State) (evs : list Event) : State * list (list Effect) :=
  match evs with
  | [] => (st, [])
  | ev :: evs =>
      let '(st', eff) := handle st ev in
      let '(st'', effs) := run st' evs in
      (st'', eff :: effs)
  end.

(** ** Vocabulary of the statements *)

(** One [send-changes] submission: who sent it, what, and when. *)
Record Submission := {
  sub_socket : string;
  sub_content : string;
  sub_now : Z
}.

Definition send_changes_events (docId : string) (subs : list Submission)
  : list Event :=
  (λ x, SendChanges (sub_socket x) docId (sub_content x) (sub_now x)) <$> subs.

(** The [ai-generate] requests of one socket, each with its arrival time. *)
Definition ai_requests (s : string) (reqs : list (GenRequest * Z))
  : list Event :=
  (λ r, AiGenerate s r.1 r.2) <$> reqs.

(** The rate-limit bucket of a connection, if the service holds one. *)
Definition bucket (st : State) (s : string) : option RateLimit :=
  match aiService st with
  | Some svc => rateLimits svc !! s
  | None => None
  end.

(** A check at time [now] opens a new window for [userId]: there is no
    bucket, or its window has expired. *)
Definition starts_window (svc : AIService) (userId : string) (now : Z)
  : Prop :=
  match rateLimits svc !! userId with
  | Some l => (now > resetTime l)%Z
  | None => True
  end.

Definition opens_window (st : State) (s : string) (now : Z) : Prop :=
  match bucket st s with
  | Some l => (now > resetTime l)%Z
  | None => True
  end.

(** Successive calls of [generateCodeStream] for one user, each with its
    data and the time of the call. *)
Fixpoint generate_all (svc : AIService) (userId : string)
    (reqs : list (GenData * Z)) : AIService * list (string + list Effect) :=
  match reqs with
  | [] => (svc, [])
  | (data, now) :: reqs =>
      let '(svc', r) := generateCodeStream svc data userId now in
      let '(svc'', rs) := generate_all svc' userId reqs in
      (svc'', r :: rs)
  end.

Definition rate_limit_error (s : string) : list Effect :=
  [Emit (to_socket s) (ai_error rate_limit_message)].

(** Repeated [request-sync] calls of one connection for one document. *)
Definition resyncs (s docId : string) (times : list Z) : list Event :=
  (λ now, RequestSync s docId now) <$> times.

(** [ev] is a [set-user-identity] event of socket [s]. *)
Definition identifies (s : string) (ev : Event) : Prop :=
  match ev with
  | SetUserIdentity s' _ _ _ => s' = s
  | _ => False
  end.

(** [s] is in the member set that the registry holds for [docId]. *)
Definition registered (st : State) (docId s : string) : Prop :=
  ∃ users, JsMap.get (documentUsers st) docId = Some users ∧ s ∈ users.

(** The registry is a [Map] (no key twice) and holds no empty room. *)
Definition registry_ok (m : list (string * list string)) : Prop :=
  NoDup (JsMap.keys m) ∧ Forall (λ e : string * list string, e.2 ≠ []) m.

Definition rooms_ok (st : State) : Prop := registry_ok (documentUsers st).

(** Every registered member of a room is in socket.io's room of that
    name, hence reached by [io.to(docId)]. *)
Definition synced (st : State) : Prop :=
  ∀ docId s, registered st docId s → docId ∈ socket_rooms st s.

(** Events that may come between two [request-sync] calls for [docId]
    without touching what is sent: no edit of the document, and the
    member [s] of its room neither joins, leaves nor disconnects, so that
    the room is never emptied and the cached state never evicted. *)
Definition quiet_for (s docId : string) (ev : Event) : Prop :=
  match ev with
  | SendChanges _ d _ _ => d ≠ docId
  | JoinDocument t _ _ | LeaveDocument t _ | Disconnect t => t ≠ s
  | _ => True
  end.

(** From [st] to [st'] the member [s] stays in the room of [docId] and
    what a [request-sync] for [docId] would read stays the same: the
    cached state when there is one, else the absence of the row. *)
Definition same_view (s docId : string) (st st' : State) : Prop :=
  registered st' docId s
  ∧ (∀ state, documentCache st !! docId = Some state →
              documentCache st' !! docId = Some state)
  ∧ (documentCache st !! docId = None → documents st !! docId = None →
     documentCache st' !! docId = None ∧ documents st' !! docId = None).

(** ** Vocabulary of the further properties *)

(** A socket is registered in at most one room, the room that bears its
    own socket id apart (the implicit leave of [join-document] skips
    [socket.id]). *)
Definition single_room (st : State) : Prop :=
  ∀ s d1 d2, registered st d1 s → registered st d2 s →
             d1 = d2 ∨ d1 = s ∨ d2 = s.

(** [ev] is not a join, leave or disconnect of socket [s]. *)
Definition stays (s : string) (ev : Event) : Prop :=
  match ev with
  | JoinDocument t _ _ | LeaveDocument t _ | Disconnect t => t ≠ s
  | _ => True
  end.

(** The contents submitted for [docId] by the [send-changes] events of a
    run, in arrival order. *)
Fixpoint edits_of (docId : string) (evs : list Event) : list string :=
  match evs with
  | [] => []
  | SendChanges _ d c _ :: evs =>
      if decide (d = docId) then c :: edits_of docId evs
      else edits_of docId evs
  | _ :: evs => edits_of docId evs
  end.

(** The backend hands the chunks of a list, one resume each, to the
    [k]-th suspended handler. *)
Definition chunk_events (k : nat) (chunks : list string) : list Event :=
  (λ text, Backend k (Chunk text)) <$> chunks.

(** Every bucket counts at least the request that opened it and at most
    the ceiling. *)
Definition buckets_ok (svc : AIService) : Prop :=
  ∀ userId l, rateLimits svc !! userId = Some l →
              (1 ≤ count l ≤ MAX_REQUESTS_PER_MINUTE)%Z.

(** ** Prompt construction *)

Definition newline : Ascii.ascii := Ascii.ascii_of_nat 10.

Definition nl : string := String newline EmptyString.

(** [code.split('\n')]: never empty, the empty string gives one empty
    line. *)
Fixpoint split_lines (s : string) : list string :=
  match s with
  | EmptyString => [EmptyString]
  | String c r =>
      if decide (c = newline) then EmptyString :: split_lines r
      else match split_lines r with
           | h :: t => String c h :: t
           | [] => [String c EmptyString]
           end
  end.

(** [lines.join('\n')] *)
Fixpoint join_lines (l : list string) : string :=
  match l with
  | [] => EmptyString
  | x :: r =>
      match r with
      | [] => x
      | _ :: _ => x +:+ nl +:+ join_lines r
      end
  end.

(** How [Array.prototype.slice] reads an integer bound on an array of
    length [len]: a negative one counts from the end, and both ends are
    clamped. *)
Definition relative_index (k : Z) (len : nat) : nat :=
  if decide (k < 0)%Z then Z.to_nat (Z.max (Z.of_nat len + k) 0)
  else Nat.min (Z.to_nat k) len.

(** [lines.slice(start, end)], an omitted (undefined) bound being the
    start or the end of the array. *)
Definition slice (start end_ : option Z) (l : list string) : list string :=
  let k := match start with
           | Some i => relative_index i (length l)
           | None => 0
           end in
  let final := match end_ with
               | Some i => relative_index i (length l)
               | None => length l
               end in
  take (final - k) (drop k l).

(** The argument of [buildPrompt].  A field left undefined is [None] and
    takes the default of the destructuring; [cursorPosition] is null
    ([None]) or an object, whose [lineNumber] is an integer or is missing
    ([Some None]). *)
Record PromptData := {
  pd_code : option string;
  pd_language : option string;
  pd_cursorPosition : option (option Z);
  pd_userPrompt : option string;
  pd_action : option string
}.

Definition prompt_lines (data : PromptData) : list string :=
  split_lines (default "" (pd_code data)).

(** [cursorPosition ? cursorPosition.lineNumber : lines.length] *)
Definition cursorLine (data : PromptData) : option Z :=
  match pd_cursorPosition data with
  | Some lineNumber => lineNumber
  | None => Some (Z.of_nat (length (prompt_lines data)))
  end.

Definition beforeCursor (data : PromptData) : string :=
  join_lines (slice (Some 0%Z) (cursorLine data) (prompt_lines data)).

Definition afterCursor (data : PromptData) : string :=
  join_lines (slice (cursorLine data) None (prompt_lines data)).

(** The [switch (action)] of [buildPrompt]. *)
Definition systemPrompt (language action : string) : string :=
  if decide (action = "complete") then
    "You are an expert " +:+ language +:+ " programmer. Complete the following code thoughtfully and concisely. Provide ONLY the code that should be added, without explanations, markdown formatting, or code fences. Do not repeat the existing code."
  else if decide (action = "refactor") then
    "You are an expert code reviewer. Refactor the following " +:+ language +:+ " code to improve readability, performance, and best practices. Return ONLY the refactored code without explanations."
  else if decide (action = "explain") then
    "You are a coding mentor. Explain the following " +:+ language +:+ " code clearly and concisely. Focus on what it does and why."
  else if decide (action = "debug") then
    "You are a debugging expert. Analyze the following " +:+ language +:+ " code for bugs and issues. Suggest fixes with brief explanations."
  else "You are a helpful coding assistant for " +:+ language +:+ ".".

(** A fenced block of the prompt: title line, opening fence with the
    language, the text, closing fence. *)
Definition fenced (title language text : string) : string :=
  title +:+ nl +:+ "```" +:+ language +:+ nl +:+ text +:+ nl +:+ "```" +:+ nl.

(** [AIService.buildPrompt(data)] *)
Definition buildPrompt (data : PromptData) : string :=
  let language := default "javascript" (pd_language data) in
  let userPrompt := default "" (pd_userPrompt data) in
  let action := default "complete" (pd_action data) in
  let prompt := systemPrompt language action +:+ nl +:+ nl in
  let prompt :=
    if decide (userPrompt = "") then prompt
    else prompt +:+ "User request: " +:+ userPrompt +:+ nl +:+ nl in
  let prompt :=
    if decide (beforeCursor data = "") then prompt
    else prompt +:+ fenced "Code before cursor:" language (beforeCursor data)
                +:+ nl in
  let prompt :=
    if decide (action = "complete") then
      prompt +:+ "Continue the code from this point. Provide the next logical lines of code." +:+ nl
    else prompt in
  if decide (afterCursor data ≠ "" ∧ action ≠ "complete") then
    prompt +:+ fenced "Code after cursor:" language (afterCursor data)
  else prompt.

(** ** Facts about the containers *)

Section js_set_facts.
Implicit Types (xs : list string) (x y : string).

Lemma JsSet_has_true xs x : JsSet.has xs x = true ↔ x ∈ xs.
Proof. unfold JsSet.has. apply bool_decide_eq_true. Qed.

Lemma JsSet_has_false xs x : JsSet.has xs x = false ↔ x ∉ xs.
Proof. unfold JsSet.has. apply bool_decide_eq_false. Qed.

Lemma JsSet_elem_of_add xs x y : y ∈ JsSet.add xs x ↔ y ∈ xs ∨ y = x.
Proof.
  unfold JsSet.add. destruct (JsSet.has xs x) eqn:E.
  - apply JsSet_has_true in E. split; [auto | intros [H | ->]; auto].
  - rewrite elem_of_app, list_elem_of_singleton. tauto.
Qed.

Lemma JsSet_add_nonempty xs x : JsSet.add xs x ≠ [].
Proof.
  intros H. assert (x ∈ JsSet.add xs x) as Hin
    by (apply JsSet_elem_of_add; auto).
  rewrite H in Hin. by apply not_elem_of_nil in Hin.
Qed.

Lemma JsSet_elem_of_delete xs x y : y ∈ JsSet.delete xs x ↔ y ∈ xs ∧ y ≠ x.
Proof. unfold JsSet.delete. rewrite list_elem_of_filter. tauto. Qed.

Lemma JsSet_delete_absent xs x : x ∉ xs → JsSet.delete xs x = xs.
Proof.
  unfold JsSet.delete. induction xs as [| a xs IH]; [done |].
  intros Hn. apply not_elem_of_cons in Hn as [Hne Hn].
  rewrite filter_cons_True by congruence. by rewrite IH.
Qed.

Lemma JsSet_size_zero xs : JsSet.size xs = 0%Z ↔ xs = [].
Proof.
  unfold JsSet.size. destruct xs; simpl; split; try done; lia.
Qed.
End js_set_facts.

Section js_map_facts.
Context {V : Type}.
Implicit Types (m : list (string * V)) (k : string) (v : V).

Lemma JsMap_get_set_eq m k v : JsMap.get (JsMap.set m k v) k = Some v.
Proof.
  induction m as [| [k' v'] m IH]; simpl.
  - by rewrite decide_True.
  - destruct (decide (k' = k)) as [-> | Hne]; simpl.
    + by rewrite decide_True.
    + by rewrite decide_False.
Qed.

Lemma JsMap_get_set_ne m k k' v :
  k ≠ k' → JsMap.get (JsMap.set m k v) k' = JsMap.get m k'.
Proof.
  intros Hne. induction m as [| [k0 v0] m IH]; simpl.
  - by rewrite decide_False.
  - destruct (decide (k0 = k)) as [-> | Hne0]; simpl.
    + by rewrite !decide_False.
    + by rewrite IH.
Qed.

Lemma JsMap_get_delete_eq m k : JsMap.get (JsMap.delete m k) k = None.
Proof.
  unfold JsMap.delete. induction m as [| [k0 v0] m IH]; [done |].
  destruct (decide (k0 = k)) as [-> | Hne].
  - by rewrite filter_cons_False by (simpl; tauto).
  - rewrite filter_cons_True by done. simpl. by rewrite decide_False.
Qed.

Lemma JsMap_get_delete_ne m k k' :
  k ≠ k' → JsMap.get (JsMap.delete m k) k' = JsMap.get m k'.
Proof.
  intros Hne. unfold JsMap.delete.
  induction m as [| [k0 v0] m IH]; [done |].
  destruct (decide (k0 = k)) as [-> | Hne0].
  - rewrite filter_cons_False by (simpl; tauto). simpl.
    by rewrite decide_False.
  - rewrite filter_cons_True by done. simpl. by rewrite IH.
Qed.

Lemma JsMap_get_elem_of m k v : JsMap.get m k = Some v → (k, v) ∈ m.
Proof.
  induction m as [| [k0 v0] m IH]; simpl; [done |].
  destruct (decide (k0 = k)) as [-> | Hne].
  - intros [= ->]. left.
  - intros H. right. auto.
Qed.

Lemma JsMap_get_None m k : JsMap.get m k = None ↔ k ∉ JsMap.keys m.
Proof.
  unfold JsMap.keys. induction m as [| [k0 v0] m IH]; simpl.
  - split; [intros _; apply not_elem_of_nil | done].
  - rewrite not_elem_of_cons. destruct (decide (k0 = k)) as [-> | Hne].
    + split; [done | tauto].
    + rewrite IH. split; [auto | tauto].
Qed.

Lemma JsMap_elem_of_get m k v :
  NoDup (JsMap.keys m) → (k, v) ∈ m → JsMap.get m k = Some v.
Proof.
  unfold JsMap.keys. induction m as [| [k0 v0] m IH]; simpl.
  - intros _ H. by apply not_elem_of_nil in H.
  - intros Hnd Hin. apply NoDup_cons in Hnd as [Hk0 Hnd].
    apply elem_of_cons in Hin as [[= -> ->] | Hin].
    + by rewrite decide_True.
    + destruct (decide (k0 = k)) as [-> | Hne]; [| auto].
      exfalso. apply Hk0. apply list_elem_of_fmap. by exists (k, v).
Qed.

Lemma JsMap_keys_set m k v :
  JsMap.keys (JsMap.set m k v)
  = if JsMap.has m k then JsMap.keys m else JsMap.keys m ++ [k].
Proof.
  unfold JsMap.keys, JsMap.has.
  induction m as [| [k0 v0] m IH]; csimpl; [done |].
  destruct (decide (k0 = k)) as [-> | Hne]; csimpl; [done |].
  rewrite IH. by destruct (JsMap.get m k).
Qed.

Lemma JsMap_keys_set_NoDup m k v :
  NoDup (JsMap.keys m) → NoDup (JsMap.keys (JsMap.set m k v)).
Proof.
  intros Hnd. rewrite JsMap_keys_set. unfold JsMap.has.
  destruct (JsMap.get m k) eqn:E; [done |].
  apply JsMap_get_None in E. apply NoDup_app. split_and!; [done | | ].
  - intros x Hx Hx'. apply list_elem_of_singleton in Hx' as ->. done.
  - apply NoDup_singleton.
Qed.

Lemma JsMap_keys_delete_NoDup m k :
  NoDup (JsMap.keys m) → NoDup (JsMap.keys (JsMap.delete m k)).
Proof.
  unfold JsMap.keys, JsMap.delete. induction m as [| [k0 v0] m IH]; [done |].
  simpl. intros Hnd. apply NoDup_cons in Hnd as [Hk0 Hnd].
  destruct (decide (k0 = k)) as [-> | Hne].
  - rewrite filter_cons_False by (simpl; tauto). auto.
  - rewrite filter_cons_True by done. simpl. apply NoDup_cons. split; [| auto].
    intros Hin. apply Hk0. apply list_elem_of_fmap in Hin as [e [-> He]].
    apply list_elem_of_filter in He as [_ He].
    apply list_elem_of_fmap. by exists e.
Qed.

Lemma JsMap_Forall_set (P : string * V → Prop) m k v :
  P (k, v) → Forall P m → Forall P (JsMap.set m k v).
Proof.
  intros Hp. induction 1 as [| [k0 v0] m H0 Hm IH]; simpl.
  - by constructor.
  - destruct (decide (k0 = k)); by constructor.
Qed.

Lemma JsMap_Forall_delete (P : string * V → Prop) m k :
  Forall P m → Forall P (JsMap.delete m k).
Proof.
  intros H. apply Forall_forall. intros e He.
  apply list_elem_of_filter in He as [_ He].
  by eapply Forall_forall in H.
Qed.
End js_map_facts.

(** ** The synchroniser *)

Lemma send_changes_cached st s docId c now state :
  documentCache st !! docId = Some state →
  send_changes st s docId c now
  = (with_documentCache
       (<[docId := {| content := c; lastModified := now;
                      version := version state + 1 |}]> (documentCache st)) st,
     [Persist docId c;
      Emit (io_to docId) (receive_changes c (version state + 1) s)]).
Proof.
  intros H. unfold send_changes, updateDocumentState. rewrite !H. simpl.
  by rewrite lookup_insert_eq.
Qed.

Lemma send_changes_hydrated st s docId c now data_content :
  documentCache st !! docId = None →
  documents st !! docId = Some data_content →
  send_changes st s docId c now
  = (with_documentCache
       (<[docId := {| content := c; lastModified := now; version := 2 |}]>
          (<[docId := {| content := default "" data_content;
                         lastModified := now; version := 1 |}]>
             (documentCache st))) st,
     [Persist docId c; Emit (io_to docId) (receive_changes c 2 s)]).
Proof.
  intros Hc Hd. unfold send_changes, getDocumentState, updateDocumentState.
  rewrite Hc, Hd. simpl. rewrite lookup_insert_eq. simpl.
  by rewrite lookup_insert_eq.
Qed.

Lemma send_changes_not_found st s docId c now :
  documentCache st !! docId = None →
  documents st !! docId = None →
  send_changes st s docId c now
  = (st, [Emit (to_socket s) (error "Document not found")]).
Proof.
  intros Hc Hd. unfold send_changes, getDocumentState. by rewrite Hc, Hd.
Qed.

(** C1: from a cached state at version V, N send-changes events for the
    document handled in arrival order leave the cache holding the content
    of the last submission at version V + N; the content is replaced
    wholesale (it is the last submission's, whatever was there). *)
Theorem C1_last_writer_wins st docId state subs :
  documentCache st !! docId = Some state →
  ∃ state',
    documentCache (run st (send_changes_events docId subs)).1 !! docId
      = Some state'
    ∧ content state' = default (content state) (sub_content <$> last subs)
    ∧ version state' = (version state + Z.of_nat (length subs))%Z.
Proof.
  revert st state. induction subs as [| sub subs IH]; intros st state Hst.
  - exists state. simpl. split_and!; [done | done | lia].
  - simpl. rewrite (send_changes_cached _ _ _ _ _ _ Hst).
    set (st1 := with_documentCache _ st).
    set (state1 := {| content := sub_content sub; lastModified := sub_now sub;
                      version := version state + 1 |}).
    destruct (IH st1 state1) as (state' & Hc & Hcont & Hver).
    { unfold st1. simpl. apply lookup_insert_eq. }
    fold (send_changes_events docId subs).
    destruct (run st1 (send_changes_events docId subs)) as [st2 effs] eqn:E.
    simpl in *. exists state'. split_and!; [done | |].
    + rewrite Hcont. destruct subs as [| sub' subs]; [done |].
      rewrite last_cons_cons.
      destruct (last (sub' :: subs)) eqn:El; [done |].
      by apply last_None in El.
    + rewrite Hver. simpl. lia.
Qed.

Lemma C1_last_writer_wins_witness :
  ∃ state',
    documentCache
      (run (with_documentCache
              {[ "doc" := {| content := "a"; lastModified := 0; version := 4 |} ]}
              (initial true ∅))
         (send_changes_events "doc"
            [ {| sub_socket := "A"; sub_content := "hello"; sub_now := 10 |};
              {| sub_socket := "B"; sub_content := "hello world"; sub_now := 11 |} ])).1
      !! "doc" = Some state'
    ∧ content state' = "hello world"
    ∧ version state' = 6%Z.
Proof.
  apply (C1_last_writer_wins
           (with_documentCache
              {[ "doc" := {| content := "a"; lastModified := 0; version := 4 |} ]}
              (initial true ∅)) "doc"
           {| content := "a"; lastModified := 0; version := 4 |}
           [ {| sub_socket := "A"; sub_content := "hello"; sub_now := 10 |};
             {| sub_socket := "B"; sub_content := "hello world"; sub_now := 11 |} ]).
  reflexivity.
Defined.

(** ** The room registry keeps no empty room *)

Lemma JsMap_elem_of_set {V} (m : list (string * V)) k v e :
  e ∈ JsMap.set m k v → e = (k, v) ∨ e ∈ m.
Proof.
  induction m as [| [k0 v0] m IH]; simpl.
  - intros H. apply list_elem_of_singleton in H. auto.
  - destruct (decide (k0 = k)) as [-> | Hne]; rewrite !elem_of_cons; [tauto |].
    intros [-> | H]; [auto |]. destruct (IH H); auto.
Qed.

Lemma registry_ok_set m k v :
  v ≠ [] → registry_ok m → registry_ok (JsMap.set m k v).
Proof.
  intros Hv [Hnd Hall]. split.
  - by apply JsMap_keys_set_NoDup.
  - by apply JsMap_Forall_set.
Qed.

Lemma registry_ok_delete_set m k v :
  registry_ok m → registry_ok (JsMap.delete (JsMap.set m k v) k).
Proof.
  intros [Hnd Hall]. split.
  - by apply JsMap_keys_delete_NoDup, JsMap_keys_set_NoDup.
  - apply Forall_forall. intros e He.
    apply list_elem_of_filter in He as [Hk He].
    apply JsMap_elem_of_set in He as [-> | He]; [done |].
    by eapply Forall_forall in Hall.
Qed.

Lemma JsMap_set_set {V} (m : list (string * V)) k v v' :
  JsMap.set (JsMap.set m k v) k v' = JsMap.set m k v'.
Proof.
  induction m as [| [k0 v0] m IH]; simpl.
  - by rewrite decide_True.
  - destruct (decide (k0 = k)) as [-> | Hne]; simpl.
    + by rewrite decide_True.
    + rewrite decide_False by done. by rewrite IH.
Qed.

Lemma documentUsers_socket_leave s room st :
  documentUsers (socket_leave s room st) = documentUsers st.
Proof. unfold socket_leave. by destruct (sids st !! s). Qed.

Lemma documentUsers_getDocumentState st docId now :
  documentUsers (getDocumentState st docId now).2 = documentUsers st.
Proof.
  unfold getDocumentState.
  by destruct (documentCache st !! docId), (documents st !! docId).
Qed.

Lemma rooms_ok_leave_previous_room s st room :
  rooms_ok st → rooms_ok (leave_previous_room s st room).
Proof.
  unfold rooms_ok, leave_previous_room. intros Hok.
  destruct (decide (room ≠ s)); [| done].
  rewrite documentUsers_socket_leave.
  destruct (JsMap.get (documentUsers st) room) as [users |] eqn:E;
    [| by rewrite ?documentUsers_socket_leave].
  destruct (decide (JsSet.size (JsSet.delete users s) = 0%Z)) as [Hz | Hnz];
    simpl; rewrite ?documentUsers_socket_leave.
  - by apply registry_ok_delete_set.
  - apply registry_ok_set; [| done]. by rewrite <- JsSet_size_zero.
Qed.

Lemma rooms_ok_leave_previous_rooms s st :
  rooms_ok st → rooms_ok (leave_previous_rooms s st).
Proof.
  unfold leave_previous_rooms. generalize (socket_rooms st s) as rooms.
  intros rooms. revert st.
  induction rooms as [| room rooms IH]; intros st Hok; simpl; [done |].
  by apply IH, rooms_ok_leave_previous_room.
Qed.

Lemma rooms_ok_join_document st s docId now :
  rooms_ok st → rooms_ok (join_document st s docId now).1.
Proof.
  intros Hok. apply (rooms_ok_leave_previous_rooms s) in Hok.
  unfold join_document. set (st0 := leave_previous_rooms s st) in *.
  set (st1 := socket_join s docId st0).
  set (st2 := if JsMap.has (documentUsers st1) docId then st1 else _).
  set (st3 := with_documentUsers _ st2).
  assert (rooms_ok st3) as Hok3.
  { unfold rooms_ok, st3, st2.
    destruct (JsMap.has (documentUsers st1) docId);
      cbn [documentUsers with_documentUsers];
      [| rewrite JsMap_set_set];
      (apply registry_ok_set; [apply JsSet_add_nonempty | exact Hok]). }
  pose proof (documentUsers_getDocumentState st3 docId now) as Hg.
  destruct (getDocumentState st3 docId now) as [state st4]. simpl in *.
  unfold rooms_ok. by rewrite Hg.
Qed.

Lemma rooms_ok_leave_document st s docId :
  rooms_ok st → rooms_ok (leave_document st s docId).1.
Proof.
  unfold rooms_ok, leave_document. intros Hok.
  rewrite documentUsers_socket_leave.
  destruct (JsMap.get (documentUsers st) docId) as [users |] eqn:E; simpl;
    [| by rewrite ?documentUsers_socket_leave].
  destruct (decide (JsSet.size (JsSet.delete users s) = 0%Z)) as [Hz | Hnz];
    simpl; rewrite ?documentUsers_socket_leave.
  - by apply registry_ok_delete_set.
  - apply registry_ok_set; [| done]. by rewrite <- JsSet_size_zero.
Qed.

Lemma disconnect_rooms_keys s hasMeta meta entries cache :
  JsMap.keys (disconnect_rooms s hasMeta meta entries cache).1.1
    `sublist_of` JsMap.keys entries.
Proof.
  unfold JsMap.keys. revert cache.
  induction entries as [| [docId users] rest IH]; intros cache; simpl; [done |].
  destruct (JsSet.has users s).
  - destruct (decide (JsSet.size (JsSet.delete users s) = 0%Z)).
    + specialize (IH (delete docId cache)).
      destruct (disconnect_rooms s hasMeta meta rest (delete docId cache))
        as [[rest' cache'] eff']. csimpl in *. by apply sublist_cons.
    + specialize (IH cache).
      destruct (disconnect_rooms s hasMeta meta rest cache)
        as [[rest' cache'] eff']. csimpl in *. by apply sublist_skip.
  - specialize (IH cache).
    destruct (disconnect_rooms s hasMeta meta rest cache)
      as [[rest' cache'] eff']. csimpl in *. by apply sublist_skip.
Qed.

Lemma disconnect_rooms_nonempty s hasMeta meta entries cache :
  Forall (λ e : string * list string, e.2 ≠ []) entries →
  Forall (λ e : string * list string, e.2 ≠ [])
    (disconnect_rooms s hasMeta meta entries cache).1.1.
Proof.
  intros Hall. revert cache.
  induction Hall as [| [docId users] rest Hne Hall IH]; intros cache; simpl;
    [done |].
  destruct (JsSet.has users s).
  - destruct (decide (JsSet.size (JsSet.delete users s) = 0%Z)) as [Hz | Hnz].
    + specialize (IH (delete docId cache)).
      by destruct (disconnect_rooms s hasMeta meta rest (delete docId cache))
        as [[rest' cache'] eff'].
    + specialize (IH cache).
      destruct (disconnect_rooms s hasMeta meta rest cache)
        as [[rest' cache'] eff']. simpl in *. constructor; [| done].
      simpl. by rewrite <- JsSet_size_zero.
  - specialize (IH cache).
    destruct (disconnect_rooms s hasMeta meta rest cache)
      as [[rest' cache'] eff']. simpl in *. by constructor.
Qed.

Lemma rooms_ok_disconnect st s : rooms_ok st → rooms_ok (disconnect st s).1.
Proof.
  unfold rooms_ok, disconnect. intros [Hnd Hall]. simpl.
  pose proof (disconnect_rooms_keys s
    (match userMetadata st !! s with Some _ => true | None => false end)
    (userMetadata st) (documentUsers st) (documentCache st)) as Hk.
  pose proof (disconnect_rooms_nonempty s
    (match userMetadata st !! s with Some _ => true | None => false end)
    (userMetadata st) (documentUsers st) (documentCache st) Hall) as Hn.
  destruct (disconnect_rooms _ _ _ _ _) as [[users cache] eff]. simpl in *.
  split; [| done]. by eapply sublist_NoDup.
Qed.

Lemma rooms_ok_handle st ev : rooms_ok st → rooms_ok (handle st ev).1.
Proof.
  intros Hok. destruct ev; simpl.
  - unfold connect. by destruct (sids st !! s).
  - by apply rooms_ok_join_document.
  - unfold send_changes, getDocumentState, updateDocumentState.
    destruct (documentCache st !! docId) eqn:E; simpl.
    + rewrite E. simpl. by rewrite lookup_insert_eq.
    + destruct (documents st !! docId); simpl; [| done].
      rewrite lookup_insert_eq. simpl. by rewrite lookup_insert_eq.
  - unfold request_sync.
    pose proof (documentUsers_getDocumentState st docId now) as Hg.
    destruct (getDocumentState st docId now) as [[state |] st']; simpl in *;
      unfold rooms_ok; by rewrite Hg.
  - done.
  - unfold cursor_move. by destruct (userMetadata st !! s).
  - unfold ai_generate. destruct (userMetadata st !! s); [| done].
    destruct (aiService st) as [svc |]; [| done].
    by destruct (generateCodeStream svc (gen_data rq) s now) as [svc' [msg | eff]].
  - unfold ai_resume. destruct (generators st !! k); [| done]. by destruct item.
  - by apply rooms_ok_disconnect.
  - by apply rooms_ok_leave_document.
  - unfold cleanup_tick. by destruct (aiService st).
  - unfold store_written. by destruct (documents st !! docId).
Qed.

(** ** Eviction of emptied rooms *)

Lemma sids_leave_previous_room_cache s st room docId :
  room ≠ docId →
  JsMap.get (documentUsers (leave_previous_room s st room)) docId
    = JsMap.get (documentUsers st) docId
  ∧ documentCache (leave_previous_room s st room) !! docId
    = documentCache st !! docId.
Proof.
  intros Hne. unfold leave_previous_room.
  destruct (decide (room ≠ s)); [| done].
  rewrite documentUsers_socket_leave.
  assert (documentCache (socket_leave s room st) = documentCache st) as Hc
    by (unfold socket_leave; by destruct (sids st !! s)).
  destruct (JsMap.get (documentUsers st) room) as [users |];
    [| by rewrite documentUsers_socket_leave, Hc].
  destruct (decide (JsSet.size (JsSet.delete users s) = 0%Z)); simpl;
    rewrite ?documentUsers_socket_leave, ?Hc.
  - rewrite JsMap_get_delete_ne, JsMap_get_set_ne by done.
    by rewrite lookup_delete_ne.
  - by rewrite JsMap_get_set_ne.
Qed.

Lemma leave_previous_room_absent s st room docId :
  JsMap.get (documentUsers st) docId = None →
  documentCache st !! docId = None →
  JsMap.get (documentUsers (leave_previous_room s st room)) docId = None
  ∧ documentCache (leave_previous_room s st room) !! docId = None.
Proof.
  intros Hu Hc. destruct (decide (room = docId)) as [-> | Hne].
  - unfold leave_previous_room. destruct (decide (docId ≠ s)); [| done].
    rewrite documentUsers_socket_leave, Hu.
    split; [by rewrite documentUsers_socket_leave |].
    unfold socket_leave. by destruct (sids st !! s).
  - destruct (sids_leave_previous_room_cache s st room docId Hne) as [-> ->].
    done.
Qed.

Lemma leave_previous_room_evicts s st room users :
  room ≠ s →
  JsMap.get (documentUsers st) room = Some users →
  JsSet.delete users s = [] →
  JsMap.get (documentUsers (leave_previous_room s st room)) room = None
  ∧ documentCache (leave_previous_room s st room) !! room = None.
Proof.
  intros Hne Hu Hd. unfold leave_previous_room.
  rewrite decide_True by done. rewrite documentUsers_socket_leave, Hu, Hd.
  simpl. split.
  - apply JsMap_get_delete_eq.
  - apply lookup_delete_eq.
Qed.

Lemma foldl_leave_previous_room_absent s rooms st docId :
  JsMap.get (documentUsers st) docId = None →
  documentCache st !! docId = None →
  JsMap.get (documentUsers (foldl (leave_previous_room s) st rooms)) docId = None
  ∧ documentCache (foldl (leave_previous_room s) st rooms) !! docId = None.
Proof.
  revert st. induction rooms as [| room rooms IH]; intros st Hu Hc; simpl;
    [done |].
  destruct (leave_previous_room_absent s st room docId Hu Hc). by apply IH.
Qed.

Lemma leave_previous_rooms_evicts s st room users :
  room ∈ socket_rooms st s →
  room ≠ s →
  JsMap.get (documentUsers st) room = Some users →
  JsSet.delete users s = [] →
  JsMap.get (documentUsers (leave_previous_rooms s st)) room = None
  ∧ documentCache (leave_previous_rooms s st) !! room = None.
Proof.
  unfold leave_previous_rooms. generalize (socket_rooms st s) as rooms.
  intros rooms Hin Hne. revert st.
  induction rooms as [| r rooms IH]; intros st Hu Hd;
    [by apply not_elem_of_nil in Hin |].
  simpl. destruct (decide (r = room)) as [-> | Hr].
  - destruct (leave_previous_room_evicts s st room users Hne Hu Hd).
    by apply foldl_leave_previous_room_absent.
  - apply elem_of_cons in Hin as [-> | Hin]; [done |].
    destruct (sids_leave_previous_room_cache s st r room Hr) as [Hu' Hc'].
    apply IH; [done | by rewrite Hu' | done].
Qed.

Lemma leave_document_evicts st s docId users :
  JsMap.get (documentUsers st) docId = Some users →
  JsSet.delete users s = [] →
  JsMap.get (documentUsers (leave_document st s docId).1) docId = None
  ∧ documentCache (leave_document st s docId).1 !! docId = None.
Proof.
  intros Hu Hd. unfold leave_document.
  rewrite documentUsers_socket_leave, Hu, Hd. simpl. split.
  - apply JsMap_get_delete_eq.
  - apply lookup_delete_eq.
Qed.

(** What the loop of the disconnect handler leaves in the registry and in
    the cache, entry by entry. *)
Lemma disconnect_rooms_get s hasMeta meta entries cache docId :
  NoDup (JsMap.keys entries) →
  JsMap.get (disconnect_rooms s hasMeta meta entries cache).1.1 docId
  = match JsMap.get entries docId with
    | Some users =>
        if JsSet.has users s then
          if decide (JsSet.size (JsSet.delete users s) = 0%Z) then None
          else Some (JsSet.delete users s)
        else Some users
    | None => None
    end.
Proof.
  unfold JsMap.keys. revert cache.
  induction entries as [| [k users] rest IH]; intros cache Hnd; csimpl; [done |].
  apply NoDup_cons in Hnd as [Hk Hnd].
  assert (k = docId → JsMap.get rest docId = None) as Hrest.
  { intros <-. by apply JsMap_get_None. }
  destruct (JsSet.has users s) eqn:Hhas.
  - destruct (decide (JsSet.size (JsSet.delete users s) = 0%Z)) as [Hz | Hnz].
    + specialize (IH (delete k cache) Hnd).
      destruct (disconnect_rooms s hasMeta meta rest (delete k cache))
        as [[rest' cache'] eff']. simpl in *. rewrite IH.
      destruct (decide (k = docId)) as [Heq | Hne]; [| done].
      rewrite (Hrest Heq), Hhas. by rewrite decide_True.
    + specialize (IH cache Hnd).
      destruct (disconnect_rooms s hasMeta meta rest cache)
        as [[rest' cache'] eff']. simpl in *.
      destruct (decide (k = docId)); [| done].
      rewrite Hhas. by rewrite decide_False.
  - specialize (IH cache Hnd).
    destruct (disconnect_rooms s hasMeta meta rest cache)
      as [[rest' cache'] eff']. simpl in *.
    destruct (decide (k = docId)); [| done]. by rewrite Hhas.
Qed.

Lemma disconnect_rooms_cache_absent s hasMeta meta entries cache docId :
  cache !! docId = None →
  (disconnect_rooms s hasMeta meta entries cache).1.2 !! docId = None.
Proof.
  revert cache.
  induction entries as [| [k users] rest IH]; intros cache Hc; simpl; [done |].
  destruct (JsSet.has users s).
  - destruct (decide (JsSet.size (JsSet.delete users s) = 0%Z)).
    + specialize (IH (delete k cache)).
      destruct (disconnect_rooms s hasMeta meta rest (delete k cache))
        as [[rest' cache'] eff']. simpl in *. apply IH.
      apply lookup_delete_None. auto.
    + specialize (IH cache Hc).
      by destruct (disconnect_rooms s hasMeta meta rest cache)
        as [[rest' cache'] eff'].
  - specialize (IH cache Hc).
    by destruct (disconnect_rooms s hasMeta meta rest cache)
      as [[rest' cache'] eff'].
Qed.

Lemma disconnect_rooms_cache_evicted s hasMeta meta entries cache docId users :
  (docId, users) ∈ entries →
  s ∈ users →
  JsSet.delete users s = [] →
  (disconnect_rooms s hasMeta meta entries cache).1.2 !! docId = None.
Proof.
  intros Hin Hs Hd. revert cache.
  induction entries as [| [k us] rest IH]; intros cache;
    [by apply not_elem_of_nil in Hin |].
  apply elem_of_cons in Hin as [[= <- <-] | Hin].
  - simpl. apply JsSet_has_true in Hs. rewrite Hs, Hd. simpl.
    pose proof (disconnect_rooms_cache_absent s hasMeta meta rest
                  (delete docId cache) docId (lookup_delete_eq _ _)) as Ha.
    by destruct (disconnect_rooms s hasMeta meta rest (delete docId cache))
      as [[rest' cache'] eff'].
  - simpl. destruct (JsSet.has us s).
    + destruct (decide (JsSet.size (JsSet.delete us s) = 0%Z)).
      * specialize (IH Hin (delete k cache)).
        by destruct (disconnect_rooms s hasMeta meta rest (delete k cache))
          as [[rest' cache'] eff'].
      * specialize (IH Hin cache).
        by destruct (disconnect_rooms s hasMeta meta rest cache)
          as [[rest' cache'] eff'].
    + specialize (IH Hin cache).
      by destruct (disconnect_rooms s hasMeta meta rest cache)
        as [[rest' cache'] eff'].
Qed.

Lemma disconnect_rooms_cache_kept s hasMeta meta entries cache docId :
  (∀ users, (docId, users) ∈ entries → s ∈ users → JsSet.delete users s ≠ []) →
  (disconnect_rooms s hasMeta meta entries cache).1.2 !! docId = cache !! docId.
Proof.
  revert cache.
  induction entries as [| [k us] rest IH]; intros cache Hkeep; simpl; [done |].
  assert (∀ users, (docId, users) ∈ rest → s ∈ users →
                   JsSet.delete users s ≠ []) as Hrest.
  { intros users Hin. apply Hkeep. by right. }
  destruct (JsSet.has us s) eqn:Hhas.
  - destruct (decide (JsSet.size (JsSet.delete us s) = 0%Z)) as [Hz | Hnz].
    + specialize (IH (delete k cache) Hrest).
      destruct (disconnect_rooms s hasMeta meta rest (delete k cache))
        as [[rest' cache'] eff']. simpl in *. rewrite IH.
      apply lookup_delete_ne. intros ->.
      apply JsSet_size_zero in Hz. apply JsSet_has_true in Hhas.
      by apply (Hkeep us); [left | |].
    + specialize (IH cache Hrest).
      by destruct (disconnect_rooms s hasMeta meta rest cache)
        as [[rest' cache'] eff'].
  - specialize (IH cache Hrest).
    by destruct (disconnect_rooms s hasMeta meta rest cache)
      as [[rest' cache'] eff'].
Qed.

Lemma disconnect_evicts st s docId users :
  rooms_ok st →
  JsMap.get (documentUsers st) docId = Some users →
  s ∈ users →
  JsSet.delete users s = [] →
  JsMap.get (documentUsers (disconnect st s).1) docId = None
  ∧ documentCache (disconnect st s).1 !! docId = None.
Proof.
  intros [Hnd _] Hu Hs Hd. unfold disconnect. simpl.
  set (hasMeta := match userMetadata st !! s with Some _ => true | None => false end).
  pose proof (disconnect_rooms_get s hasMeta (userMetadata st)
                (documentUsers st) (documentCache st) docId Hnd) as Hg.
  pose proof (disconnect_rooms_cache_evicted s hasMeta (userMetadata st)
                (documentUsers st) (documentCache st) docId users
                (JsMap_get_elem_of _ _ _ Hu) Hs Hd) as Hc.
  destruct (disconnect_rooms _ _ _ _ _) as [[users' cache'] eff]. simpl in *.
  split; [| done]. rewrite Hg, Hu.
  apply JsSet_has_true in Hs. rewrite Hs, Hd. by rewrite decide_True.
Qed.

(** ** The registry and socket.io's rooms agree *)

Lemma socket_rooms_socket_leave s room st t :
  socket_rooms (socket_leave s room st) t
  = if decide (t = s) then JsSet.delete (socket_rooms st s) room
    else socket_rooms st t.
Proof.
  unfold socket_leave, socket_rooms.
  destruct (sids st !! s) as [rooms |] eqn:E; simpl.
  - destruct (decide (t = s)) as [-> | Hne].
    + by rewrite lookup_insert_eq.
    + by rewrite lookup_insert_ne.
  - destruct (decide (t = s)) as [-> | Hne]; [by rewrite E | done].
Qed.

Lemma socket_rooms_socket_join s room st t :
  socket_rooms (socket_join s room st) t
  = if decide (t = s) then JsSet.add (socket_rooms st s) room
    else socket_rooms st t.
Proof.
  unfold socket_join, socket_rooms at 1. simpl.
  destruct (decide (t = s)) as [-> | Hne].
  - by rewrite lookup_insert_eq.
  - by rewrite lookup_insert_ne.
Qed.

(** Taking [s] out of the registry's room [room] together with
    [socket.leave(room)] keeps the two in agreement. *)
Lemma synced_leave s room st st' :
  (∀ docId t, registered st' docId t →
              registered st docId t ∧ ¬ (docId = room ∧ t = s)) →
  (∀ t, socket_rooms st' t = socket_rooms (socket_leave s room st) t) →
  synced st → synced st'.
Proof.
  intros Hreg Hrooms Hsync docId t Ht.
  destruct (Hreg docId t Ht) as [Hold Hnot].
  rewrite Hrooms, socket_rooms_socket_leave.
  destruct (decide (t = s)) as [-> | Hne]; [| by apply Hsync].
  apply JsSet_elem_of_delete. split; [by apply Hsync |].
  intros ->. by apply Hnot.
Qed.

Lemma registered_remove m room users s docId t us :
  JsMap.get m room = Some users →
  JsMap.get
    (if decide (JsSet.size (JsSet.delete users s) = 0%Z)
     then JsMap.delete (JsMap.set m room (JsSet.delete users s)) room
     else JsMap.set m room (JsSet.delete users s)) docId = Some us →
  t ∈ us →
  (∃ us0, JsMap.get m docId = Some us0 ∧ t ∈ us0) ∧ ¬ (docId = room ∧ t = s).
Proof.
  intros Hm Hget Ht. destruct (decide (docId = room)) as [-> | Hne].
  - destruct (decide (JsSet.size (JsSet.delete users s) = 0%Z)).
    + by rewrite JsMap_get_delete_eq in Hget.
    + rewrite JsMap_get_set_eq in Hget. injection Hget as <-.
      apply JsSet_elem_of_delete in Ht as [Ht Hts].
      split; [by exists users | tauto].
  - destruct (decide (JsSet.size (JsSet.delete users s) = 0%Z)).
    + rewrite JsMap_get_delete_ne, JsMap_get_set_ne in Hget by done.
      split; [by exists us | tauto].
    + rewrite JsMap_get_set_ne in Hget by done.
      split; [by exists us | tauto].
Qed.

Lemma synced_leave_previous_room s st room :
  synced st → synced (leave_previous_room s st room).
Proof.
  unfold leave_previous_room. destruct (decide (room ≠ s)); [| done].
  rewrite documentUsers_socket_leave.
  destruct (JsMap.get (documentUsers st) room) as [users |] eqn:E.
  - apply (synced_leave s room st).
    + intros docId t [us [Hus Ht]]. unfold registered.
      eapply registered_remove; [exact E | | exact Ht].
      destruct (decide (JsSet.size (JsSet.delete users s) = 0%Z));
        simpl in Hus; by rewrite ?documentUsers_socket_leave in Hus.
    + intros t. by destruct (decide (JsSet.size (JsSet.delete users s) = 0%Z)).
  - apply (synced_leave s room st); [| done].
    intros docId t [us [Hus Ht]]. rewrite documentUsers_socket_leave in Hus.
    split; [by exists us |]. intros [-> ->]. congruence.
Qed.

Lemma synced_leave_previous_rooms s st :
  synced st → synced (leave_previous_rooms s st).
Proof.
  unfold leave_previous_rooms. generalize (socket_rooms st s) as rooms.
  intros rooms. revert st.
  induction rooms as [| room rooms IH]; intros st Hs; simpl; [done |].
  by apply IH, synced_leave_previous_room.
Qed.

Lemma sids_getDocumentState st docId now :
  sids (getDocumentState st docId now).2 = sids st.
Proof.
  unfold getDocumentState.
  by destruct (documentCache st !! docId), (documents st !! docId).
Qed.

Lemma synced_same st st' :
  documentUsers st' = documentUsers st → sids st' = sids st →
  synced st → synced st'.
Proof.
  intros Hu Hr Hs docId t. unfold registered, socket_rooms.
  rewrite Hu, Hr. apply Hs.
Qed.

Lemma synced_join_document st s docId now :
  synced st → synced (join_document st s docId now).1.
Proof.
  intros Hs. apply (synced_leave_previous_rooms s) in Hs.
  unfold join_document. set (st0 := leave_previous_rooms s st) in *.
  set (st1 := socket_join s docId st0).
  set (st2 := if JsMap.has (documentUsers st1) docId then st1 else _).
  set (st3 := with_documentUsers _ st2).
  assert (synced st3) as Hs3.
  { intros d t [us [Hus Ht]].
    assert (socket_rooms st3 t = socket_rooms st1 t) as ->.
    { unfold st3, st2. by destruct (JsMap.has (documentUsers st1) docId). }
    unfold st1. rewrite socket_rooms_socket_join.
    assert (JsMap.get (documentUsers st3) d
            = if decide (docId = d)
              then Some (JsSet.add (default [] (JsMap.get (documentUsers st0) docId)) s)
              else JsMap.get (documentUsers st0) d) as Hget.
    { assert (documentUsers st1 = documentUsers st0) as Hu1 by done.
      unfold st3, st2, JsMap.has. rewrite Hu1.
      destruct (JsMap.get (documentUsers st0) docId) eqn:E;
        cbn [documentUsers with_documentUsers]; rewrite ?Hu1;
        destruct (decide (docId = d)) as [<- | Hne];
        rewrite ?JsMap_get_set_eq, ?JsMap_get_set_ne by done;
        rewrite ?E; done. }
    rewrite Hget in Hus.
    destruct (decide (docId = d)) as [<- | Hne].
    - injection Hus as <-. apply JsSet_elem_of_add in Ht as [Ht | ->].
      + destruct (JsMap.get (documentUsers st0) docId) as [us0 |] eqn:E;
          [| by apply not_elem_of_nil in Ht].
        assert (docId ∈ socket_rooms st0 t) by (apply Hs; by exists us0).
        destruct (decide (t = s)) as [-> | Hts]; [| done].
        apply JsSet_elem_of_add. auto.
      + rewrite decide_True by done. apply JsSet_elem_of_add. auto.
    - assert (d ∈ socket_rooms st0 t) by (apply Hs; by exists us).
      destruct (decide (t = s)) as [-> | Hts]; [| done].
      apply JsSet_elem_of_add. auto. }
  pose proof (documentUsers_getDocumentState st3 docId now) as Hg.
  pose proof (sids_getDocumentState st3 docId now) as Hr.
  destruct (getDocumentState st3 docId now) as [state st4]. simpl in *.
  by apply (synced_same st3).
Qed.

Lemma synced_leave_document st s docId :
  synced st → synced (leave_document st s docId).1.
Proof.
  unfold leave_document. rewrite documentUsers_socket_leave.
  destruct (JsMap.get (documentUsers st) docId) as [users |] eqn:E.
  - apply (synced_leave s docId st).
    + intros d t [us [Hus Ht]]. unfold registered.
      eapply registered_remove; [exact E | | exact Ht].
      destruct (decide (JsSet.size (JsSet.delete users s) = 0%Z));
        simpl in Hus; by rewrite ?documentUsers_socket_leave in Hus.
    + intros t. by destruct (decide (JsSet.size (JsSet.delete users s) = 0%Z)).
  - apply (synced_leave s docId st); [| done].
    intros d t [us [Hus Ht]]. simpl in Hus.
    rewrite documentUsers_socket_leave in Hus.
    split; [by exists us |]. intros [-> ->]. congruence.
Qed.

Lemma synced_disconnect st s :
  rooms_ok st → synced st → synced (disconnect st s).1.
Proof.
  intros [Hnd _] Hs d t [us [Hus Ht]]. unfold disconnect in *. simpl in *.
  set (hasMeta := match userMetadata st !! s with Some _ => true | None => false end) in *.
  pose proof (disconnect_rooms_get s hasMeta (userMetadata st)
                (documentUsers st) (documentCache st) d Hnd) as Hg.
  destruct (disconnect_rooms _ _ _ _ _) as [[users' cache'] eff]. simpl in *.
  rewrite Hus in Hg.
  destruct (JsMap.get (documentUsers st) d) as [us0 |] eqn:E; [| done].
  assert (t ∈ us0 ∧ t ≠ s) as [Ht0 Hts].
  { destruct (JsSet.has us0 s) eqn:Hhas.
    - destruct (decide (JsSet.size (JsSet.delete us0 s) = 0%Z)); [done |].
      injection Hg as ->. by apply JsSet_elem_of_delete in Ht.
    - injection Hg as ->. apply JsSet_has_false in Hhas.
      split; [done |]. by intros ->. }
  unfold socket_rooms. simpl. rewrite lookup_delete_ne by done.
  apply Hs. by exists us0.
Qed.

Lemma synced_connect st s : synced st → synced (connect st s).1.
Proof.
  intros Hs. unfold connect. destruct (sids st !! s) as [rooms |] eqn:E;
    [done |].
  intros d t Ht. specialize (Hs d t Ht). unfold socket_rooms in *. simpl.
  destruct (decide (t = s)) as [-> | Hne].
  - rewrite E in Hs. by apply not_elem_of_nil in Hs.
  - by rewrite lookup_insert_ne.
Qed.

Lemma synced_handle st ev :
  rooms_ok st → synced st → synced (handle st ev).1.
Proof.
  intros Hok Hs. destruct ev; simpl.
  - by apply synced_connect.
  - by apply synced_join_document.
  - revert Hs. apply synced_same;
      unfold send_changes, getDocumentState, updateDocumentState;
      (destruct (documentCache st !! docId) eqn:E; simpl;
       [ rewrite E; simpl; by rewrite lookup_insert_eq
       | destruct (documents st !! docId); simpl; [| done];
         rewrite lookup_insert_eq; simpl; by rewrite lookup_insert_eq ]).
  - revert Hs. unfold request_sync.
    pose proof (documentUsers_getDocumentState st docId now) as Hg.
    pose proof (sids_getDocumentState st docId now) as Hr.
    destruct (getDocumentState st docId now) as [[state |] st']; simpl in *;
      by apply synced_same.
  - done.
  - unfold cursor_move. by destruct (userMetadata st !! s).
  - unfold ai_generate. destruct (userMetadata st !! s); [| done].
    destruct (aiService st) as [svc |]; [| done].
    by destruct (generateCodeStream svc (gen_data rq) s now) as [svc' [msg | eff]].
  - unfold ai_resume. destruct (generators st !! k); [| done]. by destruct item.
  - by apply synced_disconnect.
  - by apply synced_leave_document.
  - unfold cleanup_tick. by destruct (aiService st).
  - unfold store_written. by destruct (documents st !! docId).
Qed.

(** Every state the server reaches from its start-up state keeps the
    registry well formed and in agreement with socket.io's rooms. *)
Lemma reachable_ok ai docs evs :
  rooms_ok (run (initial ai docs) evs).1 ∧ synced (run (initial ai docs) evs).1.
Proof.
  assert (∀ st, rooms_ok st ∧ synced st → rooms_ok (run st evs).1 ∧ synced (run st evs).1) as H.
  { induction evs as [| ev evs IH]; intros st [Hok Hs]; simpl; [done |].
    pose proof (rooms_ok_handle st ev Hok) as Hok'.
    pose proof (synced_handle st ev Hok Hs) as Hs'.
    destruct (handle st ev) as [st' eff]. simpl in *.
    specialize (IH st' (conj Hok' Hs')).
    by destruct (run st' evs) as [st'' effs]. }
  apply H. split.
  - split; [apply NoDup_nil_2 | constructor].
  - intros d t [us [Hus _]]. done.
Qed.

(** ** Broadcast of an accepted edit *)

Lemma sids_send_changes st s docId c now :
  sids (send_changes st s docId c now).1 = sids st
  ∧ documentUsers (send_changes st s docId c now).1 = documentUsers st.
Proof.
  destruct (documentCache st !! docId) as [state |] eqn:Hc.
  - by rewrite (send_changes_cached _ _ _ _ _ _ Hc).
  - destruct (documents st !! docId) as [dc |] eqn:Hd.
    + by rewrite (send_changes_hydrated _ _ _ _ _ _ Hc Hd).
    + by rewrite (send_changes_not_found _ _ _ _ _ Hc Hd).
Qed.

(** C2: an accepted send-changes event (state cached, or hydrated from the
    store) issues one receive-changes emit addressed with [io.to] to the
    document's room, so it reaches every member of the room, the submitter
    included; its payload is the cached content and version after the
    update and the submitter's socket id. *)
Theorem C2_broadcast_to_room st s docId c now :
  is_Some (documentCache st !! docId) ∨ is_Some (documents st !! docId) →
  ∃ state',
    documentCache (handle st (SendChanges s docId c now)).1 !! docId
      = Some state'
    ∧ content state' = c
    ∧ version state'
      = (match documentCache st !! docId with
         | Some state => version state
         | None => 1
         end + 1)%Z
    ∧ (handle st (SendChanges s docId c now)).2
      = [Persist docId c;
         Emit (io_to docId)
           (receive_changes (content state') (version state') s)]
    ∧ (∀ t, docId ∈ socket_rooms (handle st (SendChanges s docId c now)).1 t →
            receives (handle st (SendChanges s docId c now)).1 (io_to docId) t
            = true)
    ∧ (docId ∈ socket_rooms st s →
       receives (handle st (SendChanges s docId c now)).1 (io_to docId) s
       = true)
    ∧ (synced st →
       ∀ t, registered (handle st (SendChanges s docId c now)).1 docId t →
            receives (handle st (SendChanges s docId c now)).1 (io_to docId) t
            = true).
Proof.
  intros Hacc. cbn [handle].
  destruct (sids_send_changes st s docId c now) as [Hsids Husers].
  assert (∀ t, socket_rooms (send_changes st s docId c now).1 t
               = socket_rooms st t) as Hrooms
    by (intros t; unfold socket_rooms; by rewrite Hsids).
  assert (∀ t, docId ∈ socket_rooms st t →
               receives (send_changes st s docId c now).1 (io_to docId) t = true)
    as Hrecv.
  { intros t Ht. simpl. rewrite Hrooms. by apply JsSet_has_true. }
  assert (∃ state',
    documentCache (send_changes st s docId c now).1 !! docId = Some state'
    ∧ content state' = c
    ∧ version state'
      = (match documentCache st !! docId with
         | Some state => version state
         | None => 1
         end + 1)%Z
    ∧ (send_changes st s docId c now).2
      = [Persist docId c;
         Emit (io_to docId)
           (receive_changes (content state') (version state') s)])
    as (state' & H1 & H2 & H3 & H4).
  { destruct (documentCache st !! docId) as [state |] eqn:Hc.
    - rewrite (send_changes_cached _ _ _ _ _ _ Hc). simpl.
      rewrite lookup_insert_eq. eexists. split; [done |]. done.
    - destruct Hacc as [[? [=]] | [dc Hd]].
      rewrite (send_changes_hydrated _ _ _ _ _ _ Hc Hd). simpl.
      rewrite lookup_insert_eq. eexists. split; [done |]. done. }
  exists state'. split_and!; try done.
  - intros t. rewrite Hrooms. apply Hrecv.
  - apply Hrecv.
  - intros Hs t [us [Hus Ht]]. apply Hrecv, Hs. exists us.
    by rewrite <- Husers.
Qed.

Lemma C2_broadcast_to_room_witness :
  ∃ state',
    documentCache
      (handle (run (initial true {[ "D1" := Some "" ]})
                 [Connect "A"; Connect "B"; JoinDocument "A" "D1" 100;
                  JoinDocument "B" "D1" 101]).1
         (SendChanges "A" "D1" "hello" 102)).1 !! "D1" = Some state'
    ∧ content state' = "hello"
    ∧ version state' = 2%Z.
Proof.
  destruct (C2_broadcast_to_room
              (run (initial true {[ "D1" := Some "" ]})
                 [Connect "A"; Connect "B"; JoinDocument "A" "D1" 100;
                  JoinDocument "B" "D1" 101]).1
              "A" "D1" "hello" 102) as (state' & H1 & H2 & H3 & _).
  - left. vm_compute. eauto.
  - exists state'. split_and!; [exact H1 | exact H2 | exact H3].
Defined.

(** ** Rate limiting of generation requests *)

Section ai_generate_steps.
Context (st : State) (s : string) (meta : UserMeta) (svc : AIService).
Hypothesis Hmeta : userMetadata st !! s = Some meta.
Hypothesis Hsvc : aiService st = Some svc.

Lemma ai_generate_fresh rq now :
  opens_window st s now →
  ai_generate st s rq now
  = (with_generators (generators st ++ [s])
       (with_aiService
          (Some {| rateLimits :=
                     <[s := {| count := 1; resetTime := now + 60000 |}]>
                       (rateLimits svc) |}) st),
     [GenerateContentStream (gen_data rq)]).
Proof.
  unfold opens_window, bucket, ai_generate, generateCodeStream, checkRateLimit.
  rewrite Hmeta, Hsvc. destruct (rateLimits svc !! s) as [l |]; [| done].
  intros Hgt. by rewrite decide_True.
Qed.

Lemma ai_generate_counted rq now l :
  bucket st s = Some l →
  (now ≤ resetTime l)%Z →
  (count l < 10)%Z →
  ai_generate st s rq now
  = (with_generators (generators st ++ [s])
       (with_aiService
          (Some {| rateLimits :=
                     <[s := {| count := count l + 1; resetTime := resetTime l |}]>
                       (rateLimits svc) |}) st),
     [GenerateContentStream (gen_data rq)]).
Proof.
  unfold bucket, ai_generate, generateCodeStream, checkRateLimit,
    MAX_REQUESTS_PER_MINUTE.
  rewrite Hmeta, Hsvc. intros -> Hle Hlt.
  rewrite decide_False by lia. by rewrite decide_False by lia.
Qed.

Lemma ai_generate_rejected rq now l :
  bucket st s = Some l →
  (now ≤ resetTime l)%Z →
  (10 ≤ count l)%Z →
  ai_generate st s rq now = (st, rate_limit_error s).
Proof.
  unfold bucket, ai_generate, generateCodeStream, checkRateLimit,
    MAX_REQUESTS_PER_MINUTE.
  rewrite Hmeta, Hsvc. intros -> Hle Hge.
  rewrite decide_False by lia. rewrite decide_True by lia.
  destruct st. simpl in *. by subst.
Qed.
End ai_generate_steps.

(** Requests of one socket inside a window whose bucket stands at [c]. *)
Lemma ai_requests_in_window reqs : ∀ st s meta c r,
  userMetadata st !! s = Some meta →
  bucket st s = Some {| count := c; resetTime := r |} →
  Forall (λ q : GenRequest * Z, (q.2 ≤ r)%Z) reqs →
  userMetadata (run st (ai_requests s reqs)).1 !! s = Some meta
  ∧ bucket (run st (ai_requests s reqs)).1 s
    = Some {| count := Z.min (c + Z.of_nat (length reqs)) (Z.max c 10);
              resetTime := r |}
  ∧ ∀ (i : nat) rq t, reqs !! i = Some (rq, t) →
      (run st (ai_requests s reqs)).2 !! i
      = Some (if decide (c + Z.of_nat i < 10)%Z
              then [GenerateContentStream (gen_data rq)]
              else rate_limit_error s).
Proof.
  induction reqs as [| [rq0 t0] reqs IH]; intros st s meta c r Hmeta Hb Hall.
  - simpl. split_and!; [done | | done].
    rewrite Hb. do 2 f_equal. lia.
  - apply Forall_cons in Hall as [Ht0 Hall]. simpl in Ht0.
    assert (∃ svc, aiService st = Some svc) as [svc Hsvc].
    { unfold bucket in Hb. destruct (aiService st); [eauto | done]. }
    cbn [ai_requests fmap list_fmap run handle]. simpl fst. simpl snd.
    fold (ai_requests s reqs).
    destruct (decide (c < 10)%Z) as [Hlt | Hge].
    + rewrite (ai_generate_counted st s meta svc Hmeta Hsvc rq0 t0 _ Hb Ht0 Hlt).
      set (st1 := with_generators _ _).
      destruct (IH st1 s meta (c + 1)%Z r) as (Hm' & Hb' & Hi); [done | | done |].
      { unfold bucket, st1. simpl. by rewrite lookup_insert_eq. }
      destruct (run st1 (ai_requests s reqs)) as [st' effs]. simpl in *.
      split_and!; [done | |].
      * rewrite Hb'. do 2 f_equal. lia.
      * intros [| i] rq t Hlook; simpl in *.
        -- injection Hlook as -> ->. by rewrite decide_True by lia.
        -- rewrite (Hi i rq t Hlook).
           destruct (decide (c + 1 + Z.of_nat i < 10)%Z);
             [rewrite decide_True by lia | rewrite decide_False by lia]; done.
    + rewrite (ai_generate_rejected st s meta svc Hmeta Hsvc rq0 t0 _ Hb Ht0)
        by (simpl; lia).
      destruct (IH st s meta c r) as (Hm' & Hb' & Hi); [done.. |].
      destruct (run st (ai_requests s reqs)) as [st' effs]. simpl in *.
      split_and!; [done | |].
      * rewrite Hb'. do 2 f_equal. lia.
      * intros [| i] rq t Hlook; simpl in *.
        -- injection Hlook as -> ->. by rewrite decide_False by lia.
        -- rewrite (Hi i rq t Hlook).
           by rewrite !decide_False by lia.
Qed.

(** The same at the level of the [ai-generate] handler, for a socket
    that has an identity and a configured service. *)
Lemma ai_generate_window st s meta rq0 t0 reqs :
  userMetadata st !! s = Some meta →
  is_Some (aiService st) →
  opens_window st s t0 →
  Forall (λ q : GenRequest * Z, (q.2 ≤ t0 + 60000)%Z) reqs →
  (∀ (i : nat) rq t, ((rq0, t0) :: reqs) !! i = Some (rq, t) →
     (run st (AiGenerate s rq0 t0 :: ai_requests s reqs)).2 !! i
     = Some (if decide (i < 10)%nat
             then [GenerateContentStream (gen_data rq)]
             else rate_limit_error s))
  ∧ bucket (run st (AiGenerate s rq0 t0 :: ai_requests s reqs)).1 s
    = Some {| count := Z.min (1 + Z.of_nat (length reqs)) 10;
              resetTime := t0 + 60000 |}
  ∧ ((9 ≤ length reqs)%nat →
     ∀ rq t, (t ≤ t0 + 60000)%Z →
       handle (run st (AiGenerate s rq0 t0 :: ai_requests s reqs)).1
         (AiGenerate s rq t)
       = ((run st (AiGenerate s rq0 t0 :: ai_requests s reqs)).1,
          rate_limit_error s))
  ∧ (∀ rq t, (t > t0 + 60000)%Z →
       (handle (run st (AiGenerate s rq0 t0 :: ai_requests s reqs)).1
          (AiGenerate s rq t)).2
       = [GenerateContentStream (gen_data rq)]
       ∧ bucket
           (handle (run st (AiGenerate s rq0 t0 :: ai_requests s reqs)).1
              (AiGenerate s rq t)).1 s
         = Some {| count := 1; resetTime := t + 60000 |}).
Proof.
  intros Hmeta [svc Hsvc] Hopen Hall.
  cbn [run handle].
  rewrite (ai_generate_fresh st s meta svc Hmeta Hsvc rq0 t0 Hopen).
  set (st1 := with_generators _ _).
  destruct (ai_requests_in_window reqs st1 s meta 1 (t0 + 60000))
    as (Hm' & Hb' & Hi); [done | | done |].
  { unfold bucket, st1. simpl. by rewrite lookup_insert_eq. }
  destruct (run st1 (ai_requests s reqs)) as [st' effs]. simpl in Hm', Hb', Hi.
  cbn [fst snd].
  assert (∃ svc', aiService st' = Some svc') as [svc' Hsvc'].
  { unfold bucket in Hb'. destruct (aiService st'); [eauto | done]. }
  split_and!.
  - intros [| i] rq t Hlook; simpl in *.
    + by injection Hlook as -> ->.
    + rewrite (Hi i rq t Hlook).
      destruct (decide (1 + Z.of_nat i < 10)%Z);
        [rewrite decide_True by lia | rewrite decide_False by lia]; done.
  - by rewrite Hb'.
  - intros Hlen rq t Ht.
    apply (ai_generate_rejected st' s meta svc' Hm' Hsvc' rq t _ Hb');
      simpl; lia.
  - intros rq t Ht.
    rewrite (ai_generate_fresh st' s meta svc' Hm' Hsvc' rq t).
    + split; [done |]. unfold bucket. simpl. by rewrite lookup_insert_eq.
    + unfold opens_window. rewrite Hb'. simpl. lia.
Qed.

Lemma generateCodeStream_fresh svc data userId now :
  starts_window svc userId now →
  generateCodeStream svc data userId now
  = ({| rateLimits :=
          <[userId := {| count := 1; resetTime := now + 60000 |}]>
            (rateLimits svc) |},
     inr [GenerateContentStream data]).
Proof.
  unfold starts_window, generateCodeStream, checkRateLimit.
  destruct (rateLimits svc !! userId) as [l |]; [| done].
  intros Hgt. by rewrite decide_True.
Qed.

Lemma generateCodeStream_counted svc data userId now l :
  rateLimits svc !! userId = Some l →
  (now ≤ resetTime l)%Z →
  (count l < 10)%Z →
  generateCodeStream svc data userId now
  = ({| rateLimits :=
          <[userId := {| count := count l + 1; resetTime := resetTime l |}]>
            (rateLimits svc) |},
     inr [GenerateContentStream data]).
Proof.
  unfold generateCodeStream, checkRateLimit, MAX_REQUESTS_PER_MINUTE.
  intros -> Hle Hlt. rewrite decide_False by lia. by rewrite decide_False by lia.
Qed.

Lemma generateCodeStream_rejected svc data userId now l :
  rateLimits svc !! userId = Some l →
  (now ≤ resetTime l)%Z →
  (10 ≤ count l)%Z →
  generateCodeStream svc data userId now = (svc, inl rate_limit_message).
Proof.
  unfold generateCodeStream, checkRateLimit, MAX_REQUESTS_PER_MINUTE.
  intros -> Hle Hge. rewrite decide_False by lia. by rewrite decide_True by lia.
Qed.

(** Calls for one user inside a window whose bucket stands at [c]. *)
Lemma generate_all_in_window reqs : ∀ svc userId c r,
  rateLimits svc !! userId = Some {| count := c; resetTime := r |} →
  Forall (λ q : GenData * Z, (q.2 ≤ r)%Z) reqs →
  rateLimits (generate_all svc userId reqs).1 !! userId
    = Some {| count := Z.min (c + Z.of_nat (length reqs)) (Z.max c 10);
              resetTime := r |}
  ∧ ∀ (i : nat) data t, reqs !! i = Some (data, t) →
      (generate_all svc userId reqs).2 !! i
      = Some (if decide (c + Z.of_nat i < 10)%Z
              then inr [GenerateContentStream data]
              else inl rate_limit_message).
Proof.
  induction reqs as [| [data0 t0] reqs IH]; intros svc userId c r Hb Hall.
  - simpl. split; [| done]. rewrite Hb. do 2 f_equal. lia.
  - apply Forall_cons in Hall as [Ht0 Hall]. simpl in Ht0.
    cbn [generate_all].
    destruct (decide (c < 10)%Z) as [Hlt | Hge].
    + rewrite (generateCodeStream_counted svc data0 userId t0 _ Hb Ht0 Hlt).
      set (svc1 := {| rateLimits := _ |}).
      destruct (IH svc1 userId (c + 1)%Z r) as (Hb' & Hi); [| done |].
      { unfold svc1. simpl. by rewrite lookup_insert_eq. }
      destruct (generate_all svc1 userId reqs) as [svc' rs]. simpl in *.
      split.
      * rewrite Hb'. do 2 f_equal. lia.
      * intros [| i] data t Hlook; simpl in *.
        -- injection Hlook as -> ->. by rewrite decide_True by lia.
        -- rewrite (Hi i data t Hlook).
           destruct (decide (c + 1 + Z.of_nat i < 10)%Z);
             [rewrite decide_True by lia | rewrite decide_False by lia]; done.
    + rewrite (generateCodeStream_rejected svc data0 userId t0 _ Hb Ht0)
        by (simpl; lia).
      destruct (IH svc userId c r) as (Hb' & Hi); [done.. |].
      destruct (generate_all svc userId reqs) as [svc' rs]. simpl in *.
      split.
      * rewrite Hb'. do 2 f_equal. lia.
      * intros [| i] data t Hlook; simpl in *.
        -- injection Hlook as -> ->. by rewrite decide_False by lia.
        -- rewrite (Hi i data t Hlook). by rewrite !decide_False by lia.
Qed.

(** C3: a call of [generateCodeStream] that opens a rate-limit window for
    a connection, followed by calls for the same connection inside the
    window (up to and including [resetTime]): exactly the first ten get
    past the limiter and request a stream; every later one fails with the
    rate-limit error before the prompt is built or the backend called, and
    leaves the service state, bucket count included, as it was; the first
    call after the window has expired succeeds and starts a fresh window.
    The [ai-generate] handler of a connection with an identity shows the
    same: ten generations started, then the rate-limit ai-error alone
    with the server state unchanged. *)
Theorem C3_rate_limit_window svc userId data0 t0 reqs :
  starts_window svc userId t0 →
  Forall (λ q : GenData * Z, (q.2 ≤ t0 + 60000)%Z) reqs →
  (∀ (i : nat) data t, ((data0, t0) :: reqs) !! i = Some (data, t) →
     (generate_all svc userId ((data0, t0) :: reqs)).2 !! i
     = Some (if decide (i < 10)%nat
             then inr [GenerateContentStream data]
             else inl rate_limit_message))
  ∧ rateLimits (generate_all svc userId ((data0, t0) :: reqs)).1 !! userId
    = Some {| count := Z.min (1 + Z.of_nat (length reqs)) 10;
              resetTime := t0 + 60000 |}
  ∧ ((9 ≤ length reqs)%nat →
     ∀ data t, (t ≤ t0 + 60000)%Z →
       generateCodeStream (generate_all svc userId ((data0, t0) :: reqs)).1
         data userId t
       = ((generate_all svc userId ((data0, t0) :: reqs)).1,
          inl rate_limit_message))
  ∧ (∀ data t, (t > t0 + 60000)%Z →
       generateCodeStream (generate_all svc userId ((data0, t0) :: reqs)).1
         data userId t
       = ({| rateLimits :=
               <[userId := {| count := 1; resetTime := t + 60000 |}]>
                 (rateLimits
                    (generate_all svc userId ((data0, t0) :: reqs)).1) |},
          inr [GenerateContentStream data]))
  ∧ (∀ st meta rq0 rqs,
       userMetadata st !! userId = Some meta →
       aiService st = Some svc →
       Forall (λ q : GenRequest * Z, (q.2 ≤ t0 + 60000)%Z) rqs →
       (∀ (i : nat) rq t, ((rq0, t0) :: rqs) !! i = Some (rq, t) →
          (run st (AiGenerate userId rq0 t0 :: ai_requests userId rqs)).2 !! i
          = Some (if decide (i < 10)%nat
                  then [GenerateContentStream (gen_data rq)]
                  else rate_limit_error userId))
       ∧ ((9 ≤ length rqs)%nat →
          ∀ rq t, (t ≤ t0 + 60000)%Z →
            handle
              (run st (AiGenerate userId rq0 t0 :: ai_requests userId rqs)).1
              (AiGenerate userId rq t)
            = ((run st (AiGenerate userId rq0 t0 :: ai_requests userId rqs)).1,
               rate_limit_error userId))).
Proof.
  intros Hopen Hall. cbn [generate_all].
  rewrite (generateCodeStream_fresh svc data0 userId t0 Hopen).
  set (svc1 := {| rateLimits := _ |}).
  destruct (generate_all_in_window reqs svc1 userId 1 (t0 + 60000))
    as (Hb' & Hi); [| done |].
  { unfold svc1. simpl. by rewrite lookup_insert_eq. }
  destruct (generate_all svc1 userId reqs) as [svc' rs]. simpl in Hb', Hi.
  cbn [fst snd].
  split_and!.
  - intros [| i] data t Hlook; simpl in *.
    + by injection Hlook as -> ->.
    + rewrite (Hi i data t Hlook).
      destruct (decide (1 + Z.of_nat i < 10)%Z);
        [rewrite decide_True by lia | rewrite decide_False by lia]; done.
  - by rewrite Hb'.
  - intros Hlen data t Ht.
    apply (generateCodeStream_rejected svc' data userId t _ Hb'); simpl; lia.
  - intros data t Ht. apply generateCodeStream_fresh.
    unfold starts_window. rewrite Hb'. simpl. lia.
  - intros st meta rq0 rqs Hmeta Hsvc Hrqs.
    destruct (ai_generate_window st userId meta rq0 t0 rqs)
      as (H1 & _ & H3 & _); [done | by eexists | | done | done].
    unfold opens_window, bucket. by rewrite Hsvc.
Qed.

Lemma C3_rate_limit_window_witness :
  (generate_all {| rateLimits := ∅ |} "A"
     (({| code := "x"; language := "js"; cursorPosition := "";
          userPrompt := ""; action := "complete" |}, 1000%Z)
      :: replicate 10
           ({| code := "y"; language := "js"; cursorPosition := "";
               userPrompt := ""; action := "explain" |}, 61000%Z))).2
  !! 10%nat
  = Some (inl rate_limit_message).
Proof.
  destruct (C3_rate_limit_window {| rateLimits := ∅ |} "A"
              {| code := "x"; language := "js"; cursorPosition := "";
                 userPrompt := ""; action := "complete" |}
              1000
              (replicate 10
                 ({| code := "y"; language := "js"; cursorPosition := "";
                     userPrompt := ""; action := "explain" |}, 61000%Z)))
    as (H & _).
  - exact I.
  - repeat constructor; simpl; lia.
  - apply (H 10%nat
             {| code := "y"; language := "js"; cursorPosition := "";
                userPrompt := ""; action := "explain" |} 61000%Z).
    reflexivity.
Defined.

(** ** Disconnect *)

Lemma cleanupRateLimits_lookup svc now s :
  rateLimits (cleanupRateLimits svc now) !! s
  = match rateLimits svc !! s with
    | Some l => if decide (now > resetTime l)%Z then None else Some l
    | None => None
    end.
Proof.
  unfold cleanupRateLimits. simpl. apply option_eq. intros l.
  rewrite map_lookup_filter_Some. simpl.
  destruct (rateLimits svc !! s) as [l' |]; [| by intuition].
  destruct (decide (now > resetTime l')%Z); split; intros H;
    try done; destruct_and?; simplify_eq; done.
Qed.

Lemma disconnect_not_registered st s docId :
  rooms_ok st → ¬ registered (disconnect st s).1 docId s.
Proof.
  intros [Hnd _] [us [Hus Hs]]. unfold disconnect in Hus. simpl in Hus.
  set (hasMeta := match userMetadata st !! s with Some _ => true | None => false end) in *.
  pose proof (disconnect_rooms_get s hasMeta (userMetadata st)
                (documentUsers st) (documentCache st) docId Hnd) as Hg.
  destruct (disconnect_rooms _ _ _ _ _) as [[users' cache'] eff]. simpl in *.
  rewrite Hus in Hg.
  destruct (JsMap.get (documentUsers st) docId) as [us0 |]; [| done].
  destruct (JsSet.has us0 s) eqn:Hhas.
  - destruct (decide (JsSet.size (JsSet.delete us0 s) = 0%Z)); [done |].
    injection Hg as ->. apply JsSet_elem_of_delete in Hs. tauto.
  - injection Hg as ->. by apply JsSet_has_false in Hhas.
Qed.

Lemma disconnect_keeps_cache st s docId users :
  rooms_ok st →
  JsMap.get (documentUsers st) docId = Some users →
  JsSet.delete users s ≠ [] →
  documentCache (disconnect st s).1 !! docId = documentCache st !! docId.
Proof.
  intros [Hnd _] Hu Hd. unfold disconnect. simpl.
  set (hasMeta := match userMetadata st !! s with Some _ => true | None => false end).
  pose proof (disconnect_rooms_cache_kept s hasMeta (userMetadata st)
                (documentUsers st) (documentCache st) docId) as Hc.
  destruct (disconnect_rooms _ _ _ _ _) as [[users' cache'] eff]. simpl in *.
  apply Hc. intros us Hin _.
  apply (JsMap_elem_of_get _ _ _ Hnd) in Hin. congruence.
Qed.

Lemma aiService_disconnect st s : aiService (disconnect st s).1 = aiService st.
Proof.
  unfold disconnect. simpl.
  by destruct (disconnect_rooms _ _ _ _ _) as [[users' cache'] eff].
Qed.

(** C4, as the code has it: a disconnect removes the connection's
    identity entry and its membership (in the registry and in socket.io),
    and when it was the last member of a room the room entry and the
    cached DocumentState go with it (a room that keeps a member keeps its
    cached state).  The rate-limit bucket is left in
    place: only the periodic [cleanupRateLimits] removes it, and only once
    its window has expired. *)
Theorem C4_disconnect_cleanup st s :
  rooms_ok st →
  userMetadata (handle st (Disconnect s)).1 !! s = None
  ∧ (∀ docId, ¬ registered (handle st (Disconnect s)).1 docId s)
  ∧ sids (handle st (Disconnect s)).1 !! s = None
  ∧ (∀ docId users,
       JsMap.get (documentUsers st) docId = Some users →
       s ∈ users →
       JsSet.delete users s = [] →
       JsMap.get (documentUsers (handle st (Disconnect s)).1) docId = None
       ∧ documentCache (handle st (Disconnect s)).1 !! docId = None)
  ∧ (∀ docId users,
       JsMap.get (documentUsers st) docId = Some users →
       JsSet.delete users s ≠ [] →
       documentCache (handle st (Disconnect s)).1 !! docId
       = documentCache st !! docId)
  ∧ bucket (handle st (Disconnect s)).1 s = bucket st s
  ∧ (∀ now l,
       bucket st s = Some l →
       bucket (handle (handle st (Disconnect s)).1 (CleanupTick now)).1 s
       = if decide (now > resetTime l)%Z then None else Some l).
Proof.
  intros Hok. cbn [handle].
  pose proof (aiService_disconnect st s) as Hai.
  split_and!.
  - unfold disconnect. simpl.
    destruct (disconnect_rooms _ _ _ _ _) as [[users' cache'] eff]. simpl.
    apply lookup_delete_eq.
  - intros docId. by apply disconnect_not_registered.
  - unfold disconnect. simpl.
    destruct (disconnect_rooms _ _ _ _ _) as [[users' cache'] eff]. simpl.
    apply lookup_delete_eq.
  - intros docId users. by apply disconnect_evicts.
  - intros docId users Hu Hd. by apply (disconnect_keeps_cache st s docId users).
  - unfold bucket. by rewrite Hai.
  - intros now l Hb. unfold bucket, cleanup_tick in *. rewrite Hai.
    destruct (aiService st) as [svc |]; [| done].
    cbn [fst aiService with_aiService].
    by rewrite cleanupRateLimits_lookup, Hb.
Qed.

(** C4 as stated fails: the bucket of a disconnected connection is still
    there after the disconnect. *)
Lemma C4_bucket_survives_disconnect :
  bucket
    (run (initial true ∅)
       [Connect "A"; SetUserIdentity "A" "D1" "alice" "red";
        AiGenerate "A"
          {| rq_documentId := "D1"; rq_code := "x"; rq_language := "js";
             rq_cursorPosition := ""; rq_userPrompt := ""; rq_action := None |}
          1000;
        Disconnect "A"]).1 "A"
  = Some {| count := 1; resetTime := 61000 |}.
Proof. vm_compute. reflexivity. Qed.

Lemma C4_disconnect_cleanup_witness :
  userMetadata
    (handle (run (initial true {[ "D1" := Some "" ]})
               [Connect "A"; JoinDocument "A" "D1" 100;
                SetUserIdentity "A" "D1" "alice" "red"]).1
       (Disconnect "A")).1 !! "A" = None
  ∧ documentCache
      (handle (run (initial true {[ "D1" := Some "" ]})
                 [Connect "A"; JoinDocument "A" "D1" 100;
                  SetUserIdentity "A" "D1" "alice" "red"]).1
         (Disconnect "A")).1 !! "D1" = None.
Proof.
  destruct (C4_disconnect_cleanup
              (run (initial true {[ "D1" := Some "" ]})
                 [Connect "A"; JoinDocument "A" "D1" 100;
                  SetUserIdentity "A" "D1" "alice" "red"]).1 "A")
    as (H1 & _ & _ & H4 & _).
  - unfold rooms_ok, registry_ok. compute_done.
  - split; [exact H1 |]. apply (H4 "D1" ["A"]); [reflexivity | | reflexivity].
    apply list_elem_of_singleton. reflexivity.
Defined.

(** ** Hydration failure *)

Lemma leave_previous_room_cache_absent s st room docId :
  documentCache st !! docId = None →
  documentCache (leave_previous_room s st room) !! docId = None.
Proof.
  intros Hc. unfold leave_previous_room.
  destruct (decide (room ≠ s)); [| done].
  assert (documentCache (socket_leave s room st) = documentCache st) as Hsl
    by (unfold socket_leave; by destruct (sids st !! s)).
  destruct (JsMap.get (documentUsers (socket_leave s room st)) room);
    [| by rewrite Hsl].
  destruct (decide _); simpl; rewrite Hsl; [| done].
  apply lookup_delete_None. auto.
Qed.

Lemma leave_previous_room_documents s st room :
  documents (leave_previous_room s st room) = documents st.
Proof.
  unfold leave_previous_room. destruct (decide (room ≠ s)); [| done].
  assert (documents (socket_leave s room st) = documents st) as Hsl
    by (unfold socket_leave; by destruct (sids st !! s)).
  destruct (JsMap.get (documentUsers (socket_leave s room st)) room);
    [| done].
  by destruct (decide _).
Qed.

Lemma leave_previous_rooms_absent s st docId :
  documentCache st !! docId = None →
  documents st !! docId = None →
  documentCache (leave_previous_rooms s st) !! docId = None
  ∧ documents (leave_previous_rooms s st) !! docId = None.
Proof.
  unfold leave_previous_rooms. generalize (socket_rooms st s) as rooms.
  intros rooms. revert st.
  induction rooms as [| room rooms IH]; intros st Hc Hd; simpl; [done |].
  apply IH.
  - by apply leave_previous_room_cache_absent.
  - by rewrite leave_previous_room_documents.
Qed.

(** C5, as the code has it: when the document is neither cached nor in
    the store, hydration returns null and leaves the cache as it was,
    whichever handler asked for it.  A send-changes event then emits the
    error "Document not found" on the submitter's socket only, stops and
    changes nothing.  A request-sync changes nothing, and a join-document
    caches nothing for the document. *)
Theorem C5_hydration_failure st s docId now :
  documentCache st !! docId = None →
  documents st !! docId = None →
  getDocumentState st docId now = (None, st)
  ∧ (∀ c, handle st (SendChanges s docId c now)
          = (st, [Emit (to_socket s) (error "Document not found")]))
  ∧ (∀ t, receives st (to_socket s) t = true → t = s)
  ∧ (handle st (RequestSync s docId now)).1 = st
  ∧ documentCache (handle st (JoinDocument s docId now)).1 !! docId = None.
Proof.
  intros Hc Hd.
  assert (getDocumentState st docId now = (None, st)) as Hg
    by (unfold getDocumentState; by rewrite Hc, Hd).
  split_and!.
  - done.
  - intros c. by apply send_changes_not_found.
  - intros t. simpl. intros [Ht _]%andb_prop. by apply bool_decide_eq_true in Ht.
  - cbn [handle]. unfold request_sync. by rewrite Hg.
  - cbn [handle]. unfold join_document.
    destruct (leave_previous_rooms_absent s st docId Hc Hd) as [Hc0 Hd0].
    set (st0 := leave_previous_rooms s st) in *.
    set (st3 := with_documentUsers _ _).
    assert (getDocumentState st3 docId now = (None, st3)) as ->.
    { unfold getDocumentState.
      replace (documentCache st3) with (documentCache st0)
        by (unfold st3; by destruct (JsMap.has _ _)).
      replace (documents st3) with (documents st0)
        by (unfold st3; by destruct (JsMap.has _ _)).
      by rewrite Hc0, Hd0. }
    simpl. unfold st3. destruct (JsMap.has _ _); exact Hc0.
Qed.

(** C5 as stated fails: a request-sync whose hydration fails reports no
    error to the requesting connection, it emits nothing at all. *)
Lemma C5_request_sync_silent :
  documentCache (run (initial true ∅) [Connect "A"]).1 !! "missing" = None
  ∧ documents (run (initial true ∅) [Connect "A"]).1 !! "missing" = None
  ∧ (handle (run (initial true ∅) [Connect "A"]).1
       (RequestSync "A" "missing" 5)).2 = [].
Proof. split_and!; reflexivity. Qed.

Lemma C5_hydration_failure_witness :
  handle (run (initial true ∅) [Connect "A"]).1
    (SendChanges "A" "missing" "text" 5)
  = ((run (initial true ∅) [Connect "A"]).1,
     [Emit (to_socket "A") (error "Document not found")]).
Proof.
  destruct (C5_hydration_failure
              (run (initial true ∅) [Connect "A"]).1 "A" "missing" 5)
    as (_ & H & _); [reflexivity | reflexivity |].
  apply H.
Defined.

(** ** Resync *)

Lemma request_sync_cached st s docId now state :
  documentCache st !! docId = Some state →
  request_sync st s docId now
  = (st, [Emit (to_socket s) (document_state (content state) (version state))]).
Proof.
  intros Hc. unfold request_sync, getDocumentState. by rewrite Hc.
Qed.

Lemma request_sync_twice st s docId now now' :
  request_sync (request_sync st s docId now).1 s docId now'
  = request_sync st s docId now.
Proof.
  destruct (documentCache st !! docId) as [state |] eqn:Hc.
  - rewrite (request_sync_cached st s docId now state Hc). simpl.
    by apply request_sync_cached.
  - unfold request_sync at 2 3. unfold getDocumentState. rewrite Hc.
    destruct (documents st !! docId) as [dc |] eqn:Hd; simpl.
    + rewrite (request_sync_cached _ s docId now'
                 {| content := default "" dc; lastModified := now;
                    version := 1 |});
        [done | simpl; apply lookup_insert_eq].
    + unfold request_sync, getDocumentState. by rewrite Hc, Hd.
Qed.

Lemma same_view_frame s docId st st' :
  registered st docId s →
  documentUsers st' = documentUsers st →
  documentCache st' !! docId = documentCache st !! docId →
  documents st' !! docId = documents st !! docId →
  same_view s docId st st'.
Proof.
  intros Hreg Hu Hc Hd. unfold same_view, registered.
  rewrite Hu, Hc, Hd. done.
Qed.

Lemma same_view_trans s docId st1 st2 st3 :
  same_view s docId st1 st2 → same_view s docId st2 st3 →
  same_view s docId st1 st3.
Proof.
  intros (_ & Hc12 & Hn12) (Hr & Hc23 & Hn23). split_and!; [done | |].
  - intros state H. by apply Hc23, Hc12.
  - intros Hc Hd. destruct (Hn12 Hc Hd). by apply Hn23.
Qed.

Lemma same_view_leave_previous_room t s docId st room :
  t ≠ s → registered st docId s →
  same_view s docId st (leave_previous_room t st room).
Proof.
  intros Hts [users [Hu Hs]].
  assert (documents (leave_previous_room t st room) = documents st) as Hd
    by apply leave_previous_room_documents.
  destruct (decide (room = docId)) as [-> | Hne].
  - assert (s ∈ JsSet.delete users t) as Hs'
      by (apply JsSet_elem_of_delete; done).
    assert (JsSet.size (JsSet.delete users t) ≠ 0%Z) as Hnz.
    { rewrite JsSet_size_zero. intros Hnil. rewrite Hnil in Hs'.
      by apply not_elem_of_nil in Hs'. }
    assert (documentCache (socket_leave t docId st) = documentCache st) as Hsl
      by (unfold socket_leave; by destruct (sids st !! t)).
    destruct (decide (docId ≠ t)) as [Hdt | Hdt]; unfold leave_previous_room.
    2: { rewrite decide_False by done.
         apply same_view_frame; [by exists users | done..]. }
    unfold same_view. rewrite decide_True by done.
    rewrite documentUsers_socket_leave, Hu. rewrite decide_False by done.
    cbn [documentUsers documentCache documents with_documentUsers
           with_documentCache].
    rewrite ?documentUsers_socket_leave, ?Hsl.
    assert (documents (socket_leave t docId st) = documents st) as Hdl
      by (unfold socket_leave; by destruct (sids st !! t)).
    rewrite Hdl. split_and!; [| done | done].
    exists (JsSet.delete users t). simpl. by rewrite JsMap_get_set_eq.
  - destruct (sids_leave_previous_room_cache t st room docId Hne) as [Hu' Hc'].
    unfold same_view, registered. rewrite Hu', Hc', Hd. eauto 6.
Qed.

Lemma same_view_leave_previous_rooms t s docId st :
  t ≠ s → registered st docId s →
  same_view s docId st (leave_previous_rooms t st).
Proof.
  intros Hts. unfold leave_previous_rooms.
  generalize (socket_rooms st t) as rooms. intros rooms. revert st.
  induction rooms as [| room rooms IH]; intros st Hreg; simpl.
  - by apply same_view_frame.
  - pose proof (same_view_leave_previous_room t s docId st room Hts Hreg) as H1.
    eapply same_view_trans; [exact H1 |]. apply IH. by destruct H1.
Qed.

Lemma same_view_getDocumentState s docId st d now :
  registered st docId s →
  same_view s docId st (getDocumentState st d now).2.
Proof.
  intros Hreg. unfold getDocumentState.
  destruct (documentCache st !! d) as [state |] eqn:Hc;
    [by apply same_view_frame |].
  destruct (documents st !! d) as [dc |] eqn:Hd;
    [| by apply same_view_frame].
  simpl. unfold same_view, registered. simpl. split_and!; [done | |].
  - intros state Hs. rewrite lookup_insert_ne; [done |]. intros <-. congruence.
  - intros Hc' Hd'. rewrite lookup_insert_ne; [done |]. intros <-. congruence.
Qed.

Lemma same_view_join_document t s docId st d now :
  t ≠ s → registered st docId s →
  same_view s docId st (join_document st t d now).1.
Proof.
  intros Hts Hreg.
  pose proof (same_view_leave_previous_rooms t s docId st Hts Hreg) as H0.
  unfold join_document. set (st0 := leave_previous_rooms t st) in *.
  set (st3 := with_documentUsers _ _).
  assert (same_view s docId st0 st3) as H3.
  { destruct H0 as ([users [Hu Hs]] & _).
    assert (documentUsers (socket_join t d st0) = documentUsers st0) as Hj
      by done.
    unfold same_view, registered, st3.
    cbn [documentUsers documentCache documents with_documentUsers].
    split_and!.
    - destruct (decide (d = docId)) as [-> | Hne].
      + rewrite JsMap_get_set_eq. eexists. split; [done |].
        apply JsSet_elem_of_add. left.
        unfold JsMap.has. rewrite Hj, Hu. simpl. by rewrite Hu.
      + rewrite JsMap_get_set_ne by done. exists users. split; [| done].
        destruct (JsMap.has _ _); simpl; [done |].
        by rewrite JsMap_get_set_ne.
    - intros state Hc. by destruct (JsMap.has _ _).
    - intros Hc Hd. by destruct (JsMap.has _ _). }
  pose proof (same_view_getDocumentState s docId st3 d now) as H4.
  destruct (getDocumentState st3 d now) as [state st4]. simpl in *.
  eapply same_view_trans; [exact H0 |].
  eapply same_view_trans; [exact H3 |]. apply H4. by destruct H3.
Qed.

Lemma same_view_leave_document t s docId st d :
  t ≠ s → registered st docId s →
  same_view s docId st (leave_document st t d).1.
Proof.
  intros Hts [users [Hu Hs]]. unfold leave_document.
  assert (documentCache (socket_leave t d st) = documentCache st) as Hcl
    by (unfold socket_leave; by destruct (sids st !! t)).
  assert (documents (socket_leave t d st) = documents st) as Hdl
    by (unfold socket_leave; by destruct (sids st !! t)).
  rewrite documentUsers_socket_leave.
  destruct (JsMap.get (documentUsers st) d) as [us |] eqn:E.
  - destruct (decide (d = docId)) as [-> | Hne].
    + assert (us = users) as -> by congruence.
      assert (s ∈ JsSet.delete users t) as Hs'
        by (apply JsSet_elem_of_delete; done).
      assert (JsSet.size (JsSet.delete users t) ≠ 0%Z) as Hnz.
      { rewrite JsSet_size_zero. intros Hnil. rewrite Hnil in Hs'.
        by apply not_elem_of_nil in Hs'. }
      cbn [documentUsers with_documentUsers]. rewrite decide_False by done.
      unfold same_view, registered. simpl.
      rewrite JsMap_get_set_eq, Hcl, Hdl. eauto 6.
    + destruct (decide _); unfold same_view, registered; simpl;
        rewrite ?documentUsers_socket_leave, ?Hcl, ?Hdl;
        rewrite ?JsMap_get_delete_ne, ?JsMap_get_set_ne by done;
        rewrite ?lookup_delete_ne by done; eauto 6.
  - unfold same_view, registered. simpl.
    rewrite documentUsers_socket_leave, Hcl, Hdl. eauto 6.
Qed.

Lemma same_view_disconnect t s docId st :
  rooms_ok st → t ≠ s → registered st docId s →
  same_view s docId st (disconnect st t).1.
Proof.
  intros [Hnd _] Hts [users [Hu Hs]]. unfold disconnect. simpl.
  set (hasMeta := match userMetadata st !! t with Some _ => true | None => false end).
  pose proof (disconnect_rooms_get t hasMeta (userMetadata st)
                (documentUsers st) (documentCache st) docId Hnd) as Hg.
  pose proof (disconnect_rooms_cache_kept t hasMeta (userMetadata st)
                (documentUsers st) (documentCache st) docId) as Hc.
  assert (s ∈ JsSet.delete users t) as Hs'
    by (apply JsSet_elem_of_delete; done).
  assert (JsSet.delete users t ≠ []) as Hne.
  { intros Hnil. rewrite Hnil in Hs'. by apply not_elem_of_nil in Hs'. }
  destruct (disconnect_rooms _ _ _ _ _) as [[users' cache'] eff]. simpl in *.
  unfold same_view, registered. simpl. rewrite Hg, Hu, Hc.
  2: { intros us Hin _. apply (JsMap_elem_of_get _ _ _ Hnd) in Hin.
       congruence. }
  split_and!; [| done | done].
  destruct (JsSet.has users t).
  - rewrite decide_False by (by rewrite JsSet_size_zero). eauto.
  - eauto.
Qed.

Lemma same_view_handle st ev s docId :
  rooms_ok st → registered st docId s → quiet_for s docId ev →
  same_view s docId st (handle st ev).1.
Proof.
  intros Hok Hreg Hq. destruct ev; simpl in *.
  - unfold connect. destruct (sids st !! s0); by apply same_view_frame.
  - by apply same_view_join_document.
  - destruct (documentCache st !! docId0) as [state |] eqn:Hc.
    + rewrite (send_changes_cached _ _ _ _ _ _ Hc).
      apply same_view_frame; [done.. | | done]. simpl.
      by rewrite lookup_insert_ne.
    + destruct (documents st !! docId0) as [dc |] eqn:Hd.
      * rewrite (send_changes_hydrated _ _ _ _ _ _ Hc Hd).
        apply same_view_frame; [done.. | | done]. simpl.
        by rewrite !lookup_insert_ne.
      * rewrite (send_changes_not_found _ _ _ _ _ Hc Hd).
        by apply same_view_frame.
  - unfold request_sync.
    pose proof (same_view_getDocumentState s docId st docId0 now Hreg) as Hg.
    by destruct (getDocumentState st docId0 now) as [[state |] st'].
  - by apply same_view_frame.
  - unfold cursor_move. destruct (userMetadata st !! s0);
      by apply same_view_frame.
  - unfold ai_generate. destruct (userMetadata st !! s0);
      [| by apply same_view_frame].
    destruct (aiService st) as [svc |]; [| by apply same_view_frame].
    destruct (generateCodeStream svc (gen_data rq) s0 now) as [svc' [msg | eff]];
      by apply same_view_frame.
  - unfold ai_resume. destruct (generators st !! k);
      [| by apply same_view_frame].
    destruct item; by apply same_view_frame.
  - by apply same_view_disconnect.
  - by apply same_view_leave_document.
  - unfold cleanup_tick. destruct (aiService st); by apply same_view_frame.
  - unfold store_written. destruct (documents st !! docId0) eqn:Hd;
      [| by apply same_view_frame].
    unfold same_view, registered. simpl. split_and!; [done | done |].
    intros Hc Hd'. split; [done |]. rewrite lookup_insert_ne; [done |].
    intros <-. congruence.
Qed.

Lemma same_view_run evs : ∀ st s docId,
  rooms_ok st → registered st docId s → Forall (quiet_for s docId) evs →
  same_view s docId st (run st evs).1.
Proof.
  induction evs as [| ev evs IH]; intros st s docId Hok Hreg Hall; simpl.
  - by apply same_view_frame.
  - apply Forall_cons in Hall as [Hq Hall].
    pose proof (same_view_handle st ev s docId Hok Hreg Hq) as H1.
    pose proof (rooms_ok_handle st ev Hok) as Hok'.
    destruct (handle st ev) as [st' eff]. simpl in *.
    specialize (IH st' s docId Hok' (proj1 H1) Hall).
    destruct (run st' evs) as [st'' effs]. simpl in *.
    by eapply same_view_trans.
Qed.

Lemma request_sync_effects st s docId now :
  (request_sync st s docId now).2
  = match documentCache st !! docId with
    | Some state =>
        [Emit (to_socket s) (document_state (content state) (version state))]
    | None =>
        match documents st !! docId with
        | Some dc => [Emit (to_socket s) (document_state (default "" dc) 1)]
        | None => []
        end
    end.
Proof.
  unfold request_sync, getDocumentState.
  by destruct (documentCache st !! docId), (documents st !! docId).
Qed.

(** After a first request-sync the view of the document is settled: it
    is cached, or it is neither cached nor stored. *)
Lemma request_sync_settles st s docId now :
  (∃ state,
     documentCache (request_sync st s docId now).1 !! docId = Some state
     ∧ (request_sync st s docId now).2
       = [Emit (to_socket s) (document_state (content state) (version state))])
  ∨ (documentCache (request_sync st s docId now).1 !! docId = None
     ∧ documents (request_sync st s docId now).1 !! docId = None
     ∧ (request_sync st s docId now).2 = []).
Proof.
  unfold request_sync, getDocumentState.
  destruct (documentCache st !! docId) as [state |] eqn:Hc; simpl.
  - left. by exists state.
  - destruct (documents st !! docId) as [dc |] eqn:Hd; simpl.
    + left. eexists. by rewrite lookup_insert_eq.
    + by right.
Qed.

(** C6 as stated fails: with no edit in between, two request-sync calls
    of one connection are sent different payloads once the room of the
    document has been emptied, which evicts the cached state and makes the
    next call hydrate it again at version 1.  First run: the only member
    of the room asks, sends join-document for the same document again
    (the implicit leave empties the room), and asks again.  Second run: a
    connection outside the room asks, the only member leaves, and it asks
    again.  In both the store has taken the last edit, so only the
    version differs. *)
Lemma C6_resync_differs_after_eviction :
  (handle
     (run (initial true {[ "D1" := Some "old" ]})
        [Connect "A"; JoinDocument "A" "D1" 1; SendChanges "A" "D1" "new" 2;
         StoreWritten "D1" "new"]).1
     (RequestSync "A" "D1" 3)).2
  = [Emit (to_socket "A") (document_state "new" 2)]
  ∧ (handle
       (run (initial true {[ "D1" := Some "old" ]})
          [Connect "A"; JoinDocument "A" "D1" 1; SendChanges "A" "D1" "new" 2;
           StoreWritten "D1" "new";
           RequestSync "A" "D1" 3; JoinDocument "A" "D1" 4]).1
       (RequestSync "A" "D1" 5)).2
    = [Emit (to_socket "A") (document_state "new" 1)]
  ∧ (handle
       (run (initial true {[ "D1" := Some "old" ]})
          [Connect "A"; Connect "B"; JoinDocument "A" "D1" 1;
           SendChanges "A" "D1" "new" 2; StoreWritten "D1" "new"]).1
       (RequestSync "B" "D1" 3)).2
    = [Emit (to_socket "B") (document_state "new" 2)]
  ∧ (handle
       (run (initial true {[ "D1" := Some "old" ]})
          [Connect "A"; Connect "B"; JoinDocument "A" "D1" 1;
           SendChanges "A" "D1" "new" 2; StoreWritten "D1" "new";
           RequestSync "B" "D1" 3; LeaveDocument "A" "D1"]).1
       (RequestSync "B" "D1" 5)).2
    = [Emit (to_socket "B") (document_state "new" 1)].
Proof. split_and!; vm_compute; reflexivity. Qed.

(** C6, as the code has it.  A request-sync sends the caller alone the
    content and version of the cached state of the document, the state
    hydrated from the store at version 1 on a cache miss, and nothing when
    the document is neither cached nor stored.  Called back to back, every
    call emits what the first one emitted and after the first call the
    state no longer moves.  With other events in between, a later call
    still emits what the first one emitted provided that none of them is a
    send-changes for the document and that some member [m] of its room,
    the caller or another socket, neither joins, leaves nor disconnects
    meanwhile.  No cached DocumentState is ever modified by a
    request-sync: an entry that was cached before is cached unchanged
    after, and when the document was cached the whole state is unchanged
    (on a cache miss the first call caches the row of the store). *)
Theorem C6_resync_idempotent st s docId now times :
  (handle st (RequestSync s docId now)).2
  = match documentCache st !! docId with
    | Some state =>
        [Emit (to_socket s) (document_state (content state) (version state))]
    | None =>
        match documents st !! docId with
        | Some dc => [Emit (to_socket s) (document_state (default "" dc) 1)]
        | None => []
        end
    end
  ∧ Forall (λ eff, eff = (handle st (RequestSync s docId now)).2)
      (run st (resyncs s docId (now :: times))).2
  ∧ (run st (resyncs s docId (now :: times))).1
    = (handle st (RequestSync s docId now)).1
  ∧ (∀ d state, documentCache st !! d = Some state →
       documentCache (handle st (RequestSync s docId now)).1 !! d = Some state)
  ∧ (is_Some (documentCache st !! docId) →
     (handle st (RequestSync s docId now)).1 = st)
  ∧ (∀ m evs now',
       rooms_ok st → registered st docId m →
       Forall (quiet_for m docId) evs →
       (handle (run (handle st (RequestSync s docId now)).1 evs).1
          (RequestSync s docId now')).2
       = (handle st (RequestSync s docId now)).2).
Proof.
  split; [apply request_sync_effects |].
  cbn [resyncs fmap list_fmap run handle]. fold (resyncs s docId times).
  assert (∀ st1 eff1, (∀ now', request_sync st1 s docId now' = (st1, eff1)) →
            Forall (λ eff, eff = eff1) (run st1 (resyncs s docId times)).2
            ∧ (run st1 (resyncs s docId times)).1 = st1) as Hrep.
  { intros st1 eff1 Hfix. induction times as [| t times IH]; simpl; [done |].
    rewrite Hfix. destruct (run st1 (resyncs s docId times)) as [st2 effs].
    simpl in *. destruct IH as [IH1 IH2]. split; [by constructor | done]. }
  pose proof (request_sync_twice st s docId now) as Htwice.
  pose proof (request_sync_settles st s docId now) as Hsettle.
  pose proof (documentUsers_getDocumentState st docId now) as Husers.
  assert (documentUsers (request_sync st s docId now).1 = documentUsers st)
    as Hu1.
  { unfold request_sync.
    by destruct (getDocumentState st docId now) as [[state |] st']. }
  destruct (request_sync st s docId now) as [st1 eff1] eqn:E1. simpl in *.
  destruct (Hrep st1 eff1 Htwice) as [H1 H2].
  destruct (run st1 (resyncs s docId times)) as [st2 effs]. simpl in *.
  split_and!.
  - by constructor.
  - done.
  - intros d state Hd. unfold request_sync, getDocumentState in E1.
    destruct (documentCache st !! docId) as [state0 |] eqn:Hc.
    + injection E1 as <- _. done.
    + destruct (documents st !! docId); injection E1 as <- _; [| done].
      simpl. rewrite lookup_insert_ne; [done |]. intros <-. congruence.
  - intros [state Hc]. rewrite (request_sync_cached _ _ _ _ _ Hc) in E1.
    by injection E1 as <- _.
  - intros m evs now' Hok Hreg Hall.
    assert (rooms_ok st1) as Hok1 by (unfold rooms_ok; by rewrite Hu1).
    assert (registered st1 docId m) as Hreg1
      by (unfold registered; by rewrite Hu1).
    destruct (same_view_run evs st1 m docId Hok1 Hreg1 Hall)
      as (_ & Hsome & Hnone).
    rewrite request_sync_effects.
    destruct Hsettle as [(state & Hc & ->) | (Hc & Hd & ->)].
    + by rewrite (Hsome state Hc).
    + destruct (Hnone Hc Hd) as [-> ->]. done.
Qed.

Lemma C6_resync_idempotent_witness :
  (handle
     (run
        (handle
           (run (initial true {[ "D1" := Some "abc" ]})
              [Connect "A"; Connect "B"; Connect "C";
               JoinDocument "A" "D1" 1; JoinDocument "B" "D1" 2;
               SendChanges "B" "D1" "abcd" 3]).1
           (RequestSync "C" "D1" 5)).1
        [CursorMove "B" "D1" "p" "s"; StoreWritten "D1" "abcd";
         LeaveDocument "B" "D1"; JoinDocument "C" "D2" 6;
         RequestSync "B" "D1" 7]).1
     (RequestSync "C" "D1" 9)).2
  = [Emit (to_socket "C") (document_state "abcd" 2)].
Proof.
  destruct (C6_resync_idempotent
              (run (initial true {[ "D1" := Some "abc" ]})
                 [Connect "A"; Connect "B"; Connect "C";
                  JoinDocument "A" "D1" 1; JoinDocument "B" "D1" 2;
                  SendChanges "B" "D1" "abcd" 3]).1
              "C" "D1" 5 []) as (_ & _ & _ & _ & _ & H).
  apply (H "A"
           [CursorMove "B" "D1" "p" "s"; StoreWritten "D1" "abcd";
            LeaveDocument "B" "D1"; JoinDocument "C" "D2" 6;
            RequestSync "B" "D1" 7] 9%Z).
  - unfold rooms_ok, registry_ok. compute_done.
  - exists ["A"; "B"]. split; [reflexivity |]. compute_done.
  - repeat constructor; simpl; try tauto; discriminate.
Defined.

(** ** Generation streams and disconnect *)






(** ** Cursor relay *)

(** C8, as the code has it: a cursor-move event changes no server state.
    When its sender has registered an identity, the cursor payload, with
    the sender's socket id, name and colour, is emitted with [socket.to]
    to the room: every other member of the room gets it and the sender
    does not.  When the sender has no identity entry the event is dropped:
    nothing is emitted. *)
Theorem C8_cursor_relay st s docId position selection :
  (handle st (CursorMove s docId position selection)).1 = st
  ∧ (∀ meta, userMetadata st !! s = Some meta →
       (handle st (CursorMove s docId position selection)).2
       = [Emit (socket_to s docId)
            (cursor_update s (username meta) (color meta) position selection)])
  ∧ (userMetadata st !! s = None →
     (handle st (CursorMove s docId position selection)).2 = [])
  ∧ receives st (socket_to s docId) s = false
  ∧ (∀ t, t ≠ s → docId ∈ socket_rooms st t →
          receives st (socket_to s docId) t = true)
  ∧ (synced st →
     ∀ t, t ≠ s → registered st docId t →
          receives st (socket_to s docId) t = true).
Proof.
  assert (∀ t, t ≠ s → docId ∈ socket_rooms st t →
               receives st (socket_to s docId) t = true) as Hrecv.
  { intros t Hne Ht. simpl. apply andb_true_intro. split.
    - by apply JsSet_has_true.
    - by rewrite bool_decide_eq_false_2. }
  cbn [handle]. unfold cursor_move. split_and!.
  - by destruct (userMetadata st !! s).
  - by intros meta ->.
  - by intros ->.
  - simpl. rewrite bool_decide_eq_true_2 by done. apply andb_false_r.
  - done.
  - intros Hs t Hne Ht. apply Hrecv; [done |]. by apply Hs.
Qed.

(** C8 as stated fails: "A" and "B" are both in the room of "D1", "A" has
    announced no identity, and its cursor-move is relayed to nobody. *)
Lemma C8_cursor_dropped_without_identity :
  (handle
     (run (initial true {[ "D1" := Some "" ]})
        [Connect "A"; Connect "B"; JoinDocument "A" "D1" 100;
         JoinDocument "B" "D1" 101]).1
     (CursorMove "A" "D1" "pos" "sel")).2 = []
  ∧ JsMap.get
      (documentUsers
         (run (initial true {[ "D1" := Some "" ]})
            [Connect "A"; Connect "B"; JoinDocument "A" "D1" 100;
             JoinDocument "B" "D1" 101]).1) "D1" = Some ["A"; "B"].
Proof. split; vm_compute; reflexivity. Qed.

Lemma C8_cursor_relay_witness :
  (handle
     (run (initial true {[ "D1" := Some "" ]})
        [Connect "A"; Connect "B"; JoinDocument "A" "D1" 100;
         JoinDocument "B" "D1" 101; SetUserIdentity "A" "D1" "alice" "red"]).1
     (CursorMove "A" "D1" "pos" "sel")).2
  = [Emit (socket_to "A" "D1") (cursor_update "A" "alice" "red" "pos" "sel")]
  ∧ receives
      (run (initial true {[ "D1" := Some "" ]})
         [Connect "A"; Connect "B"; JoinDocument "A" "D1" 100;
          JoinDocument "B" "D1" 101; SetUserIdentity "A" "D1" "alice" "red"]).1
      (socket_to "A" "D1") "B" = true.
Proof.
  destruct (C8_cursor_relay
              (run (initial true {[ "D1" := Some "" ]})
                 [Connect "A"; Connect "B"; JoinDocument "A" "D1" 100;
                  JoinDocument "B" "D1" 101;
                  SetUserIdentity "A" "D1" "alice" "red"]).1
              "A" "D1" "pos" "sel") as (_ & H2 & _ & _ & H5 & _).
  split.
  - apply (H2 {| username := "alice"; color := "red"; documentId := "D1" |}).
    reflexivity.
  - apply H5; [discriminate |]. compute_done.
Defined.

(** ** Unauthenticated generation requests *)

Lemma userMetadata_leave_previous_rooms s st :
  userMetadata (leave_previous_rooms s st) = userMetadata st.
Proof.
  unfold leave_previous_rooms. generalize (socket_rooms st s) as rooms.
  intros rooms. revert st.
  induction rooms as [| room rooms IH]; intros st; simpl; [done |].
  rewrite IH. unfold leave_previous_room.
  destruct (decide (room ≠ s)); [| done].
  assert (userMetadata (socket_leave s room st) = userMetadata st) as Hsl
    by (unfold socket_leave; by destruct (sids st !! s)).
  destruct (JsMap.get (documentUsers (socket_leave s room st)) room);
    [| done].
  by destruct (decide _).
Qed.

Lemma userMetadata_join_document st s docId now :
  userMetadata (join_document st s docId now).1 = userMetadata st.
Proof.
  unfold join_document. set (st0 := leave_previous_rooms s st).
  set (st3 := with_documentUsers _ _).
  assert (userMetadata st3 = userMetadata st) as H3.
  { unfold st3. transitivity (userMetadata st0).
    - by destruct (JsMap.has _ _).
    - apply userMetadata_leave_previous_rooms. }
  unfold getDocumentState.
  by destruct (documentCache st3 !! docId), (documents st3 !! docId).
Qed.

Lemma userMetadata_absent_handle st ev s :
  ¬ identifies s ev →
  userMetadata st !! s = None →
  userMetadata (handle st ev).1 !! s = None.
Proof.
  intros Hid Hm. destruct ev; simpl in *.
  - unfold connect. by destruct (sids st !! s0).
  - by rewrite userMetadata_join_document.
  - destruct (documentCache st !! docId) as [state |] eqn:Hc.
    + by rewrite (send_changes_cached _ _ _ _ _ _ Hc).
    + destruct (documents st !! docId) as [dc |] eqn:Hd.
      * by rewrite (send_changes_hydrated _ _ _ _ _ _ Hc Hd).
      * by rewrite (send_changes_not_found _ _ _ _ _ Hc Hd).
  - unfold request_sync, getDocumentState.
    by destruct (documentCache st !! docId), (documents st !! docId).
  - by rewrite lookup_insert_ne.
  - unfold cursor_move. by destruct (userMetadata st !! s0).
  - unfold ai_generate. destruct (userMetadata st !! s0); [| done].
    destruct (aiService st) as [svc |]; [| done].
    by destruct (generateCodeStream svc (gen_data rq) s0 now) as [svc' [msg | eff]].
  - unfold ai_resume. destruct (generators st !! k); [| done]. by destruct item.
  - unfold disconnect. simpl.
    destruct (disconnect_rooms _ _ _ _ _) as [[users' cache'] eff]. simpl.
    apply lookup_delete_None. auto.
  - unfold leave_document.
    assert (userMetadata (socket_leave s0 docId st) = userMetadata st) as Hsl
      by (unfold socket_leave; by destruct (sids st !! s0)).
    destruct (JsMap.get (documentUsers (socket_leave s0 docId st)) docId);
      [destruct (decide _) |]; simpl; rewrite Hsl;
      apply lookup_delete_None; auto.
  - unfold cleanup_tick. by destruct (aiService st).
  - unfold store_written. by destruct (documents st !! docId).
Qed.

Lemma ai_generate_unauthenticated st s rq now :
  userMetadata st !! s = None →
  ai_generate st s rq now
  = (st, [Emit (to_socket s) (ai_error "User not authenticated")]).
Proof. intros H. unfold ai_generate. by rewrite H. Qed.

(** C9: a connection that has sent no set-user-identity event since the
    server started gets, for an ai-generate event, the single emit
    ai-error "User not authenticated"; the state is left as it was, so no
    generation is started and no rate-limit budget is used. *)
Theorem C9_unauthenticated_generate ai docs evs s rq now :
  Forall (λ ev, ¬ identifies s ev) evs →
  handle (run (initial ai docs) evs).1 (AiGenerate s rq now)
  = ((run (initial ai docs) evs).1,
     [Emit (to_socket s) (ai_error "User not authenticated")]).
Proof.
  intros Hall. cbn [handle]. apply ai_generate_unauthenticated.
  assert (∀ st, userMetadata st !! s = None →
                userMetadata (run st evs).1 !! s = None) as H.
  { induction Hall as [| ev evs Hev Hall IH]; intros st Hm; simpl; [done |].
    pose proof (userMetadata_absent_handle st ev s Hev Hm) as Hm'.
    destruct (handle st ev) as [st' eff]. simpl in *.
    specialize (IH st' Hm'). by destruct (run st' evs) as [st'' effs]. }
  apply H. destruct ai; apply lookup_empty.
Qed.

Lemma C9_unauthenticated_generate_witness :
  handle
    (run (initial true {[ "D1" := Some "" ]})
       [Connect "A"; Connect "B"; JoinDocument "A" "D1" 100;
        SetUserIdentity "B" "D1" "bob" "blue"]).1
    (AiGenerate "A"
       {| rq_documentId := "D1"; rq_code := "x"; rq_language := "js";
          rq_cursorPosition := ""; rq_userPrompt := ""; rq_action := None |}
       1000)
  = ((run (initial true {[ "D1" := Some "" ]})
        [Connect "A"; Connect "B"; JoinDocument "A" "D1" 100;
         SetUserIdentity "B" "D1" "bob" "blue"]).1,
     [Emit (to_socket "A") (ai_error "User not authenticated")]).
Proof.
  apply (C9_unauthenticated_generate true {[ "D1" := Some "" ]}
           [Connect "A"; Connect "B"; JoinDocument "A" "D1" 100;
            SetUserIdentity "B" "D1" "bob" "blue"] "A").
  repeat constructor; simpl; try tauto. discriminate.
Defined.

(** ** No empty room *)

Lemma join_document_evicts st s docId joined now users :
  docId ∈ socket_rooms st s →
  docId ≠ s →
  joined ≠ docId →
  JsMap.get (documentUsers st) docId = Some users →
  JsSet.delete users s = [] →
  JsMap.get (documentUsers (join_document st s joined now).1) docId = None
  ∧ documentCache (join_document st s joined now).1 !! docId = None.
Proof.
  intros Hin Hne Hj Hu Hd.
  destruct (leave_previous_rooms_evicts s st docId users Hin Hne Hu Hd)
    as [Hu0 Hc0].
  unfold join_document. set (st0 := leave_previous_rooms s st) in *.
  set (st3 := with_documentUsers _ _).
  assert (JsMap.get (documentUsers st3) docId = None
          ∧ documentCache st3 !! docId = None) as [Hu3 Hc3].
  { unfold st3. cbn [documentUsers with_documentUsers documentCache].
    rewrite JsMap_get_set_ne by done.
    destruct (JsMap.has _ _); cbn [documentUsers with_documentUsers];
      rewrite ?JsMap_get_set_ne by done; done. }
  unfold getDocumentState.
  destruct (documentCache st3 !! joined), (documents st3 !! joined);
    simpl; rewrite ?lookup_insert_ne by done; done.
Qed.

(** C10: in every state the server reaches, each room entry of the
    registry has a non-empty member set (and the registry agrees with
    socket.io's rooms).  When taking a connection out empties a room, by
    leave-document, by disconnect, or by the implicit leave at the start
    of join-document, the room entry and the cached DocumentState of that
    document are both deleted in that step. *)
Theorem C10_no_empty_room ai docs evs :
  rooms_ok (run (initial ai docs) evs).1
  ∧ (∀ ev, rooms_ok (handle (run (initial ai docs) evs).1 ev).1)
  ∧ (∀ s docId users,
       JsMap.get (documentUsers (run (initial ai docs) evs).1) docId
         = Some users →
       JsSet.delete users s = [] →
       (JsMap.get
          (documentUsers
             (handle (run (initial ai docs) evs).1 (LeaveDocument s docId)).1)
          docId = None
        ∧ documentCache
            (handle (run (initial ai docs) evs).1 (LeaveDocument s docId)).1
            !! docId = None)
       ∧ (JsMap.get
            (documentUsers
               (handle (run (initial ai docs) evs).1 (Disconnect s)).1)
            docId = None
          ∧ documentCache
              (handle (run (initial ai docs) evs).1 (Disconnect s)).1
              !! docId = None)
       ∧ (docId ≠ s →
          (JsMap.get
             (documentUsers
                (leave_previous_rooms s (run (initial ai docs) evs).1))
             docId = None
           ∧ documentCache
               (leave_previous_rooms s (run (initial ai docs) evs).1)
               !! docId = None)
          ∧ ∀ joined now, joined ≠ docId →
              JsMap.get
                (documentUsers
                   (handle (run (initial ai docs) evs).1
                      (JoinDocument s joined now)).1)
                docId = None
              ∧ documentCache
                  (handle (run (initial ai docs) evs).1
                     (JoinDocument s joined now)).1
                  !! docId = None)).
Proof.
  destruct (reachable_ok ai docs evs) as [Hok Hsync].
  set (st := (run (initial ai docs) evs).1) in *.
  split_and!.
  - done.
  - intros ev. by apply rooms_ok_handle.
  - intros s docId users Hu Hd.
    assert (s ∈ users) as Hs.
    { destruct Hok as [_ Hall].
      pose proof (JsMap_get_elem_of _ _ _ Hu) as Hin.
      eapply Forall_forall in Hall; [| exact Hin]. simpl in Hall.
      destruct (decide (s ∈ users)) as [| Hn]; [done |].
      by rewrite (JsSet_delete_absent _ _ Hn) in Hd. }
    split; [| split].
    + by apply (leave_document_evicts st s docId users).
    + by apply (disconnect_evicts st s docId users).
    + intros Hne.
      assert (docId ∈ socket_rooms st s) as Hin
        by (apply Hsync; by exists users).
      split.
      * by apply (leave_previous_rooms_evicts s st docId users).
      * intros joined now Hj.
        by apply (join_document_evicts st s docId joined now users).
Qed.

Lemma C10_no_empty_room_witness :
  JsMap.get
    (documentUsers
       (handle
          (run (initial true {[ "D1" := Some "" ]})
             [Connect "A"; JoinDocument "A" "D1" 100]).1
          (JoinDocument "A" "D2" 101)).1) "D1" = None
  ∧ documentCache
      (handle
         (run (initial true {[ "D1" := Some "" ]})
            [Connect "A"; JoinDocument "A" "D1" 100]).1
         (JoinDocument "A" "D2" 101)).1 !! "D1" = None.
Proof.
  destruct (C10_no_empty_room true {[ "D1" := Some "" ]}
              [Connect "A"; JoinDocument "A" "D1" 100]) as (_ & _ & H).
  destruct (H "A" "D1" ["A"]) as (_ & _ & Hjoin);
    [reflexivity | reflexivity |].
  destruct Hjoin as [_ Hjoin]; [discriminate |].
  apply (Hjoin "D2" 101%Z). discriminate.
Defined.

(** ** Who is registered where *)

Lemma registered_leave_previous_room t st room d s :
  registered (leave_previous_room t st room) d s →
  registered st d s ∧ (room ≠ t → ¬ (d = room ∧ s = t)).
Proof.
  unfold leave_previous_room. destruct (decide (room ≠ t)) as [Hrt | Hrt];
    [| tauto].
  rewrite documentUsers_socket_leave.
  destruct (JsMap.get (documentUsers st) room) as [users |] eqn:E.
  - intros [us [Hus Hs]].
    assert (JsMap.get
              (if decide (JsSet.size (JsSet.delete users t) = 0%Z)
               then JsMap.delete
                      (JsMap.set (documentUsers st) room (JsSet.delete users t))
                      room
               else JsMap.set (documentUsers st) room (JsSet.delete users t))
              d = Some us) as Hus'.
    { destruct (decide (JsSet.size (JsSet.delete users t) = 0%Z));
        simpl in Hus; by rewrite ?documentUsers_socket_leave in Hus. }
    destruct (registered_remove _ _ _ _ _ _ _ E Hus' Hs) as [Hreg Hnot].
    split; [exact Hreg | tauto].
  - intros [us [Hus Hs]]. rewrite documentUsers_socket_leave in Hus.
    split; [by exists us |]. intros _ [-> ->]. congruence.
Qed.

Lemma registered_leave_previous_rooms t st d s :
  registered (leave_previous_rooms t st) d s → registered st d s.
Proof.
  unfold leave_previous_rooms. generalize (socket_rooms st t) as rooms.
  intros rooms. revert st.
  induction rooms as [| room rooms IH]; intros st; simpl; [done |].
  intros H. apply IH in H.
  by apply registered_leave_previous_room in H as [H _].
Qed.

(** What [socket.rooms] holds after the implicit leave: of the rooms to
    visit, only [socket.id] can be left. *)
Lemma socket_rooms_foldl_leave t rooms : ∀ st x,
  x ∈ socket_rooms (foldl (leave_previous_room t) st rooms) t →
  x ∈ socket_rooms st t ∧ (x ∈ rooms → x = t).
Proof.
  induction rooms as [| room rooms IH]; intros st x; simpl.
  - intros H. split; [done |]. intros Hx. by apply not_elem_of_nil in Hx.
  - intros H. apply IH in H as [H Hrest].
    assert (x ∈ socket_rooms st t ∧ (x = room → x = t)) as [H1 H2].
    { unfold leave_previous_room in H.
      destruct (decide (room ≠ t)) as [Hrt | Hrt].
      - assert (x ∈ socket_rooms (socket_leave t room st) t) as H'.
        { destruct (JsMap.get (documentUsers (socket_leave t room st)) room);
            [destruct (decide _) |]; exact H. }
        rewrite socket_rooms_socket_leave, decide_True in H' by done.
        apply JsSet_elem_of_delete in H' as [H' Hne]. split; [done |].
        intros ->. done.
      - split; [done |]. intros ->. by destruct (decide (room = t)). }
    split; [done |]. intros [-> | Hin]%elem_of_cons; auto.
Qed.

Lemma socket_rooms_leave_previous_rooms t st x :
  x ∈ socket_rooms (leave_previous_rooms t st) t → x = t.
Proof.
  unfold leave_previous_rooms. intros H.
  apply socket_rooms_foldl_leave in H as [H1 H2]. by apply H2.
Qed.

Lemma join_document_get st t d0 now d :
  JsMap.get (documentUsers (join_document st t d0 now).1) d
  = if decide (d0 = d)
    then Some (JsSet.add
                 (default []
                    (JsMap.get (documentUsers (leave_previous_rooms t st)) d0))
                 t)
    else JsMap.get (documentUsers (leave_previous_rooms t st)) d.
Proof.
  unfold join_document. set (st0 := leave_previous_rooms t st).
  set (st1 := socket_join t d0 st0).
  set (st2 := if JsMap.has (documentUsers st1) d0 then st1 else _).
  set (st3 := with_documentUsers _ st2).
  pose proof (documentUsers_getDocumentState st3 d0 now) as Hg.
  destruct (getDocumentState st3 d0 now) as [state st4].
  cbn [fst snd] in *. rewrite Hg.
  assert (documentUsers st1 = documentUsers st0) as Hu1 by done.
  unfold st3, st2, JsMap.has. rewrite Hu1.
  destruct (JsMap.get (documentUsers st0) d0) eqn:E;
    cbn [documentUsers with_documentUsers]; rewrite ?Hu1;
    destruct (decide (d0 = d)) as [<- | Hne];
    rewrite ?JsMap_get_set_eq, ?JsMap_get_set_ne by done;
    rewrite ?E; done.
Qed.

Lemma registered_join_document st t d0 now d s :
  registered (join_document st t d0 now).1 d s →
  registered st d s ∨ (d = d0 ∧ s = t).
Proof.
  intros [us [Hus Hs]]. rewrite join_document_get in Hus.
  destruct (decide (d0 = d)) as [<- | Hne].
  - injection Hus as <-. apply JsSet_elem_of_add in Hs as [Hs | ->]; [| auto].
    left. apply (registered_leave_previous_rooms t).
    destruct (JsMap.get (documentUsers (leave_previous_rooms t st)) d0)
      as [us0 |] eqn:E; [by exists us0 | by apply not_elem_of_nil in Hs].
  - left. apply (registered_leave_previous_rooms t). by exists us.
Qed.

Lemma registered_leave_document st t d0 d s :
  registered (leave_document st t d0).1 d s → registered st d s.
Proof.
  unfold leave_document. rewrite documentUsers_socket_leave.
  destruct (JsMap.get (documentUsers st) d0) as [users |] eqn:E.
  - intros [us [Hus Hs]].
    assert (JsMap.get
              (if decide (JsSet.size (JsSet.delete users t) = 0%Z)
               then JsMap.delete
                      (JsMap.set (documentUsers st) d0 (JsSet.delete users t))
                      d0
               else JsMap.set (documentUsers st) d0 (JsSet.delete users t))
              d = Some us) as Hus'.
    { destruct (decide (JsSet.size (JsSet.delete users t) = 0%Z));
        simpl in Hus; by rewrite ?documentUsers_socket_leave in Hus. }
    by destruct (registered_remove _ _ _ _ _ _ _ E Hus' Hs) as [Hreg _].
  - intros [us [Hus Hs]]. simpl in Hus.
    rewrite documentUsers_socket_leave in Hus. by exists us.
Qed.

Lemma registered_disconnect st t d s :
  rooms_ok st → registered (disconnect st t).1 d s →
  registered st d s ∧ s ≠ t.
Proof.
  intros [Hnd _] [us [Hus Hs]]. unfold disconnect in Hus. simpl in Hus.
  set (hasMeta := match userMetadata st !! t with Some _ => true | None => false end) in *.
  pose proof (disconnect_rooms_get t hasMeta (userMetadata st)
                (documentUsers st) (documentCache st) d Hnd) as Hg.
  destruct (disconnect_rooms _ _ _ _ _) as [[users' cache'] eff]. simpl in *.
  rewrite Hus in Hg.
  destruct (JsMap.get (documentUsers st) d) as [us0 |] eqn:E; [| done].
  destruct (JsSet.has us0 t) eqn:Hhas.
  - destruct (decide (JsSet.size (JsSet.delete us0 t) = 0%Z)); [done |].
    injection Hg as ->. apply JsSet_elem_of_delete in Hs as [Hs Hne].
    split; [by exists us0 | done].
  - injection Hg as ->. apply JsSet_has_false in Hhas.
    split; [by exists us0 |]. by intros ->.
Qed.

(** The registry of the handlers that do not touch it. *)
Lemma documentUsers_handle_other st ev :
  match ev with
  | JoinDocument _ _ _ | LeaveDocument _ _ | Disconnect _ => True
  | _ => documentUsers (handle st ev).1 = documentUsers st
  end.
Proof.
  destruct ev; simpl; try done.
  - unfold connect. by destruct (sids st !! s).
  - apply sids_send_changes.
  - unfold request_sync.
    pose proof (documentUsers_getDocumentState st docId now) as Hg.
    by destruct (getDocumentState st docId now) as [[state |] st'].
  - unfold cursor_move. by destruct (userMetadata st !! s).
  - unfold ai_generate. destruct (userMetadata st !! s); [| done].
    destruct (aiService st) as [svc |]; [| done].
    by destruct (generateCodeStream svc (gen_data rq) s now) as [svc' [msg | eff]].
  - unfold ai_resume. destruct (generators st !! k); [| done]. by destruct item.
  - unfold cleanup_tick. by destruct (aiService st).
  - unfold store_written. by destruct (documents st !! docId).
Qed.

(** A socket gets into a room by its own join-document for that document
    and in no other way. *)
Lemma registered_handle st ev d s :
  rooms_ok st → registered (handle st ev).1 d s →
  registered st d s ∨ ∃ now, ev = JoinDocument s d now.
Proof.
  intros Hok Hreg. pose proof (documentUsers_handle_other st ev) as Hu.
  destruct ev; cbn [handle] in *;
    try (left; unfold registered in *; by rewrite Hu in Hreg).
  - apply registered_join_document in Hreg as [H | [-> ->]]; eauto.
  - left. by apply (registered_disconnect st s0) in Hreg as [H _].
  - left. by apply (registered_leave_document st s0 docId).
Qed.

Lemma registered_own_join st s d0 now d :
  synced st →
  registered (join_document st s d0 now).1 d s → d = d0 ∨ d = s.
Proof.
  intros Hsync [us [Hus Hs]]. rewrite join_document_get in Hus.
  destruct (decide (d0 = d)) as [<- | Hne]; [by left |]. right.
  apply (socket_rooms_leave_previous_rooms s st).
  apply (synced_leave_previous_rooms s st Hsync). by exists us.
Qed.

Lemma single_room_handle st ev :
  rooms_ok st → synced st → single_room st → single_room (handle st ev).1.
Proof.
  intros Hok Hsync Hone s d1 d2 H1 H2.
  assert ((∃ d0 now, ev = JoinDocument s d0 now)
          ∨ ¬ (∃ d0 now, ev = JoinDocument s d0 now))
    as [(d0 & now & ->) | Hnot].
  { destruct ev; try (right; intros (? & ? & [=]); done).
    destruct (decide (s0 = s)) as [-> | Hne]; [left; eauto |].
    right. intros (? & ? & [=]). done. }
  - cbn [handle] in *.
    apply (registered_own_join st s d0 now d1 Hsync) in H1.
    apply (registered_own_join st s d0 now d2 Hsync) in H2.
    destruct H1 as [-> | ->], H2 as [-> | ->]; auto.
  - apply (registered_handle st ev d1 s Hok) in H1 as [H1 | [now ->]];
      [| exfalso; eauto].
    apply (registered_handle st ev d2 s Hok) in H2 as [H2 | [now ->]];
      [| exfalso; eauto].
    by apply Hone.
Qed.

(** X1: in every state the server reaches, a socket is a member of at
    most one document room, the room named by its own socket id apart:
    joining a document takes the socket out of the room it was in. *)
Theorem single_room_reachable ai docs evs :
  single_room (run (initial ai docs) evs).1.
Proof.
  assert (∀ st, rooms_ok st ∧ synced st ∧ single_room st →
                single_room (run st evs).1) as H.
  { induction evs as [| ev evs IH]; intros st (Hok & Hs & Hone); simpl;
      [done |].
    pose proof (rooms_ok_handle st ev Hok) as Hok'.
    pose proof (synced_handle st ev Hok Hs) as Hs'.
    pose proof (single_room_handle st ev Hok Hs Hone) as Hone'.
    destruct (handle st ev) as [st' eff]. simpl in *.
    specialize (IH st' (conj Hok' (conj Hs' Hone'))).
    by destruct (run st' evs) as [st'' effs]. }
  apply H. split_and!.
  - split; [apply NoDup_nil_2 | constructor].
  - intros d t [us [Hus _]]. done.
  - intros s d1 d2 [us [Hus _]]. done.
Qed.

(** X2: a socket is a member of a room only if it has sent a
    join-document for that document: nothing else puts a socket into a
    member set. *)
Theorem registered_needs_join ai docs evs d s :
  registered (run (initial ai docs) evs).1 d s →
  ∃ now, JoinDocument s d now ∈ evs.
Proof.
  assert (∀ st, rooms_ok st → registered (run st evs).1 d s →
                registered st d s ∨ ∃ now, JoinDocument s d now ∈ evs) as H.
  { induction evs as [| ev evs IH]; intros st Hok; simpl; [auto |].
    pose proof (rooms_ok_handle st ev Hok) as Hok'.
    pose proof (registered_handle st ev d s Hok) as Hstep.
    destruct (handle st ev) as [st' eff]. simpl in *.
    specialize (IH st' Hok').
    destruct (run st' evs) as [st'' effs]. simpl in *.
    intros Hreg. destruct (IH Hreg) as [H | [now Hin]].
    - destruct (Hstep H) as [H' | [now ->]]; [by left |].
      right. exists now. left.
    - right. exists now. by right. }
  intros Hreg. destruct (H (initial ai docs)) as [[us [Hus _]] | Hj];
    [| exact Hreg | | exact Hj].
  - split; [apply NoDup_nil_2 | constructor].
  - done.
Qed.

Lemma registered_needs_join_witness :
  ∃ now, JoinDocument "A" "D1" now
         ∈ [Connect "A"; JoinDocument "A" "D1" 100%Z;
            SetUserIdentity "A" "D1" "alice" "red"].
Proof.
  apply (registered_needs_join true {[ "D1" := Some "" ]}
           [Connect "A"; JoinDocument "A" "D1" 100%Z;
            SetUserIdentity "A" "D1" "alice" "red"] "D1" "A").
  exists ["A"]. split; [reflexivity | compute_done].
Defined.

(** X3: the registry never lists a socket that is not connected: in
    every reachable state each member of a room is a live connection that
    socket.io holds in the room of that name. *)
Theorem members_are_connected ai docs evs d s :
  registered (run (initial ai docs) evs).1 d s →
  connected (run (initial ai docs) evs).1 s = true
  ∧ receives (run (initial ai docs) evs).1 (io_to d) s = true.
Proof.
  intros Hreg. destruct (reachable_ok ai docs evs) as [_ Hsync].
  specialize (Hsync d s Hreg). split.
  - unfold connected, socket_rooms in *.
    destruct (sids (run (initial ai docs) evs).1 !! s); [done |].
    by apply not_elem_of_nil in Hsync.
  - simpl. by apply JsSet_has_true.
Qed.

Lemma members_are_connected_witness :
  connected
    (run (initial true {[ "D1" := Some "" ]})
       [Connect "A"; Connect "B"; JoinDocument "A" "D1" 100%Z;
        Disconnect "B"]).1 "A" = true
  ∧ receives
      (run (initial true {[ "D1" := Some "" ]})
         [Connect "A"; Connect "B"; JoinDocument "A" "D1" 100%Z;
          Disconnect "B"]).1 (io_to "D1") "A" = true.
Proof.
  apply (members_are_connected true {[ "D1" := Some "" ]}
           [Connect "A"; Connect "B"; JoinDocument "A" "D1" 100%Z;
            Disconnect "B"] "D1" "A").
  exists ["A"]. split; [reflexivity | compute_done].
Defined.

(** ** Joining *)

Lemma getDocumentState_cache st d now :
  (getDocumentState st d now).1
  = documentCache (getDocumentState st d now).2 !! d.
Proof.
  unfold getDocumentState.
  destruct (documentCache st !! d) as [state |] eqn:Hc; simpl; [done |].
  destruct (documents st !! d) as [dc |] eqn:Hd; simpl; [| done].
  by rewrite lookup_insert_eq.
Qed.

Lemma documents_leave_previous_rooms s st :
  documents (leave_previous_rooms s st) = documents st.
Proof.
  unfold leave_previous_rooms. generalize (socket_rooms st s) as rooms.
  intros rooms. revert st.
  induction rooms as [| room rooms IH]; intros st; simpl; [done |].
  rewrite IH. apply leave_previous_room_documents.
Qed.

(** X4: after a join-document the socket is a member of the document's
    room, in the registry and in socket.io; it is sent the cached state of
    the document when there is one after hydration (nothing otherwise),
    and the room, the joiner included, is told the size of the member
    set. *)
Theorem join_document_outcome st s d now :
  ∃ users,
    JsMap.get (documentUsers (handle st (JoinDocument s d now)).1) d
      = Some users
    ∧ s ∈ users
    ∧ d ∈ socket_rooms (handle st (JoinDocument s d now)).1 s
    ∧ (handle st (JoinDocument s d now)).2
      = match documentCache (handle st (JoinDocument s d now)).1 !! d with
        | Some state =>
            [Emit (to_socket s)
               (document_state (content state) (version state))]
        | None => []
        end
        ++ [Emit (io_to d) (user_count_update (JsSet.size users))]
    ∧ receives (handle st (JoinDocument s d now)).1 (io_to d) s = true.
Proof.
  cbn [handle].
  pose proof (join_document_get st s d now d) as Hget.
  rewrite decide_True in Hget by done.
  eexists. split; [exact Hget |].
  assert (d ∈ socket_rooms (join_document st s d now).1 s) as Hroom.
  { unfold join_document. set (st0 := leave_previous_rooms s st).
    set (st3 := with_documentUsers _ _).
    pose proof (sids_getDocumentState st3 d now) as Hs.
    destruct (getDocumentState st3 d now) as [state st4]. cbn [fst snd] in *.
    unfold socket_rooms. rewrite Hs.
    assert (sids st3 = sids (socket_join s d st0)) as ->
      by (unfold st3; by destruct (JsMap.has _ _)).
    fold (socket_rooms (socket_join s d st0) s).
    rewrite socket_rooms_socket_join, decide_True by done.
    apply JsSet_elem_of_add. auto. }
  split_and!.
  - apply JsSet_elem_of_add. auto.
  - done.
  - unfold join_document in *. set (st0 := leave_previous_rooms s st) in *.
    set (st3 := with_documentUsers _ _) in *.
    pose proof (getDocumentState_cache st3 d now) as Hc.
    destruct (getDocumentState st3 d now) as [state st4]. cbn [fst snd] in *.
    rewrite <- Hc, Hget. done.
  - simpl. by apply JsSet_has_true.
Qed.

(** X5: when the only member of a room sends join-document for the same
    document again, the implicit leave empties the room, the cached state
    is evicted and hydrated afresh: the cache then holds the content of the
    store at version 1, whatever content and version it held before, and
    that is what the joiner is sent. *)
Theorem rejoin_resets_version st s d now users dc :
  d ∈ socket_rooms st s →
  d ≠ s →
  JsMap.get (documentUsers st) d = Some users →
  JsSet.delete users s = [] →
  documents st !! d = Some dc →
  documentCache (handle st (JoinDocument s d now)).1 !! d
  = Some {| content := default "" dc; lastModified := now; version := 1 |}
  ∧ (handle st (JoinDocument s d now)).2
    = [Emit (to_socket s) (document_state (default "" dc) 1);
       Emit (io_to d) (user_count_update 1)].
Proof.
  intros Hin Hne Hu Hd Hdoc. cbn [handle].
  destruct (leave_previous_rooms_evicts s st d users Hin Hne Hu Hd)
    as [Hu0 Hc0].
  pose proof (documents_leave_previous_rooms s st) as Hd0.
  unfold join_document. set (st0 := leave_previous_rooms s st) in *.
  assert (JsMap.has (documentUsers (socket_join s d st0)) d = false) as ->
    by (unfold JsMap.has; cbn [documentUsers socket_join with_sids];
        by rewrite Hu0).
  cbn [documentUsers with_documentUsers].
  rewrite JsMap_set_set, JsMap_get_set_eq.
  unfold getDocumentState.
  cbn [documentCache documents with_documentUsers socket_join with_sids].
  rewrite Hc0, Hd0, Hdoc. cbn [fst snd documentUsers with_documentCache
    with_documentUsers documentCache content version].
  rewrite JsMap_get_set_eq, lookup_insert_eq. done.
Qed.

Lemma rejoin_resets_version_witness :
  documentCache
    (handle
       (run (initial true {[ "D1" := Some "old" ]})
          [Connect "A"; JoinDocument "A" "D1" 1;
           SendChanges "A" "D1" "new text" 2;
           SendChanges "A" "D1" "newer text" 3]).1
       (JoinDocument "A" "D1" 4)).1 !! "D1"
  = Some {| content := "old"; lastModified := 4; version := 1 |}.
Proof.
  destruct (rejoin_resets_version
              (run (initial true {[ "D1" := Some "old" ]})
                 [Connect "A"; JoinDocument "A" "D1" 1;
                  SendChanges "A" "D1" "new text" 2;
                  SendChanges "A" "D1" "newer text" 3]).1
              "A" "D1" 4 ["A"] (Some "old")) as [H _].
  - compute_done.
  - discriminate.
  - reflexivity.
  - reflexivity.
  - reflexivity.
  - exact H.
Defined.

(** ** Versions *)

Lemma edit_step st ev s d state :
  rooms_ok st → registered st d s →
  documentCache st !! d = Some state →
  stays s ev →
  registered (handle st ev).1 d s
  ∧ ∃ state',
      documentCache (handle st ev).1 !! d = Some state'
      ∧ version state'
        = (version state + Z.of_nat (length (edits_of d [ev])))%Z
      ∧ content state' = default (content state) (last (edits_of d [ev])).
Proof.
  intros Hok Hreg Hc Hstay.
  assert (quiet_for s d ev → registered (handle st ev).1 d s
          ∧ documentCache (handle st ev).1 !! d = Some state) as Hquiet.
  { intros Hq. destruct (same_view_handle st ev s d Hok Hreg Hq)
      as (Hr & Hs & _). auto. }
  destruct ev; cbn [edits_of];
    try (destruct (Hquiet Hstay) as [Hr Hs]; split; [exact Hr |];
         exists state; split_and!; [exact Hs | simpl; lia | done]).
  destruct (decide (docId = d)) as [-> | Hne].
  - cbn [handle]. rewrite (send_changes_cached _ _ _ _ _ _ Hc). split.
    + exact Hreg.
    + eexists. simpl. rewrite lookup_insert_eq. split_and!; [done | | done].
      simpl. lia.
  - destruct (Hquiet Hne) as [Hr Hs]. split; [exact Hr |].
    exists state. split_and!; [exact Hs | simpl; lia | done].
Qed.

Lemma edits_of_cons d ev evs :
  edits_of d (ev :: evs) = edits_of d [ev] ++ edits_of d evs.
Proof.
  destruct ev; try done. simpl. by destruct (decide (docId = d)).
Qed.

(** X6: while some member stays in the room of a cached document, any
    mix of events by any sockets leaves its version equal to the version
    before plus the number of send-changes events for the document, and
    its content equal to the last content submitted: no other event
    changes, resets or evicts the cached state. *)
Theorem version_counts_edits evs : ∀ st s d state,
  rooms_ok st →
  registered st d s →
  documentCache st !! d = Some state →
  Forall (stays s) evs →
  ∃ state',
    documentCache (run st evs).1 !! d = Some state'
    ∧ version state'
      = (version state + Z.of_nat (length (edits_of d evs)))%Z
    ∧ content state' = default (content state) (last (edits_of d evs)).
Proof.
  induction evs as [| ev evs IH]; intros st s d state Hok Hreg Hc Hall.
  - exists state. simpl. split_and!; [done | lia | done].
  - apply Forall_cons in Hall as [Hstay Hall].
    destruct (edit_step st ev s d state Hok Hreg Hc Hstay)
      as (Hreg' & state1 & Hc1 & Hv1 & Hcont1).
    pose proof (rooms_ok_handle st ev Hok) as Hok'.
    rewrite (edits_of_cons d ev evs). cbn [run].
    destruct (handle st ev) as [st' eff]. cbn [fst snd] in *.
    destruct (IH st' s d state1 Hok' Hreg' Hc1 Hall)
      as (state' & Hc' & Hv' & Hcont').
    destruct (run st' evs) as [st'' effs]. cbn [fst snd] in *.
    exists state'. split_and!.
    + done.
    + rewrite Hv', Hv1, length_app. lia.
    + rewrite Hcont', Hcont1.
      destruct (edits_of d evs) as [| c cs] eqn:E using rev_ind.
      * by rewrite app_nil_r.
      * rewrite app_assoc, !last_snoc. done.
Qed.

Lemma version_counts_edits_witness :
  ∃ state',
    documentCache
      (run
         (run (initial true {[ "D1" := Some "" ; "D2" := Some "" ]})
            [Connect "A"; Connect "B"; JoinDocument "A" "D1" 1]).1
         [JoinDocument "B" "D1" 2; SendChanges "B" "D1" "x" 3;
          SendChanges "B" "D2" "other" 4; JoinDocument "B" "D2" 5;
          RequestSync "B" "D1" 6; SendChanges "A" "D1" "xy" 7;
          Disconnect "B"]).1 !! "D1" = Some state'
    ∧ version state' = 3%Z
    ∧ content state' = "xy".
Proof.
  apply (version_counts_edits
           [JoinDocument "B" "D1" 2; SendChanges "B" "D1" "x" 3;
            SendChanges "B" "D2" "other" 4; JoinDocument "B" "D2" 5;
            RequestSync "B" "D1" 6; SendChanges "A" "D1" "xy" 7;
            Disconnect "B"]
           (run (initial true {[ "D1" := Some "" ; "D2" := Some "" ]})
              [Connect "A"; Connect "B"; JoinDocument "A" "D1" 1]).1
           "A" "D1" {| content := ""; lastModified := 1; version := 1 |}).
  - unfold rooms_ok, registry_ok. compute_done.
  - exists ["A"]. split; [reflexivity | compute_done].
  - reflexivity.
  - repeat constructor; simpl; try tauto; discriminate.
Defined.

Lemma documents_leave_document st s d :
  documents (leave_document st s d).1 = documents st.
Proof.
  unfold leave_document.
  assert (documents (socket_leave s d st) = documents st) as Hsl
    by (unfold socket_leave; by destruct (sids st !! s)).
  destruct (JsMap.get (documentUsers (socket_leave s d st)) d);
    [destruct (decide _) |]; simpl; by rewrite Hsl.
Qed.

Lemma documents_disconnect st s :
  documents (disconnect st s).1 = documents st.
Proof.
  unfold disconnect. simpl.
  by destruct (disconnect_rooms _ _ _ _ _) as [[users' cache'] eff].
Qed.

(** X7: version numbers restart when a room empties.  Once the last
    member of a room has left or disconnected, the next accepted
    send-changes for the document hydrates it again and is broadcast as
    version 2, whatever version the document had reached before. *)
Theorem version_restarts_after_eviction st s t d users dc c now :
  rooms_ok st →
  JsMap.get (documentUsers st) d = Some users →
  s ∈ users →
  JsSet.delete users s = [] →
  documents st !! d = Some dc →
  (handle (handle st (LeaveDocument s d)).1 (SendChanges t d c now)).2
  = [Persist d c; Emit (io_to d) (receive_changes c 2 t)]
  ∧ (handle (handle st (Disconnect s)).1 (SendChanges t d c now)).2
    = [Persist d c; Emit (io_to d) (receive_changes c 2 t)].
Proof.
  intros Hok Hu Hs Hd Hdoc. cbn [handle]. split.
  - destruct (leave_document_evicts st s d users Hu Hd) as [_ Hc].
    rewrite (send_changes_hydrated _ t d c now dc Hc); [done |].
    by rewrite documents_leave_document.
  - destruct (disconnect_evicts st s d users Hok Hu Hs Hd) as [_ Hc].
    rewrite (send_changes_hydrated _ t d c now dc Hc); [done |].
    by rewrite documents_disconnect.
Qed.

Lemma version_restarts_after_eviction_witness :
  (handle
     (handle
        (run (initial true {[ "D1" := Some "" ]})
           [Connect "A"; Connect "B"; JoinDocument "A" "D1" 1;
            SendChanges "A" "D1" "a" 2; SendChanges "A" "D1" "ab" 3]).1
        (LeaveDocument "A" "D1")).1
     (SendChanges "B" "D1" "abc" 9)).2
  = [Persist "D1" "abc"; Emit (io_to "D1") (receive_changes "abc" 2 "B")].
Proof.
  destruct (version_restarts_after_eviction
              (run (initial true {[ "D1" := Some "" ]})
                 [Connect "A"; Connect "B"; JoinDocument "A" "D1" 1;
                  SendChanges "A" "D1" "a" 2; SendChanges "A" "D1" "ab" 3]).1
              "A" "B" "D1" ["A"] (Some "") "abc" 9) as [H _].
  - unfold rooms_ok, registry_ok. compute_done.
  - reflexivity.
  - compute_done.
  - reflexivity.
  - reflexivity.
  - exact H.
Defined.

(** ** Identities *)

Lemma userMetadata_leave_document st s d :
  userMetadata (leave_document st s d).1 = delete s (userMetadata st).
Proof.
  unfold leave_document.
  assert (userMetadata (socket_leave s d st) = userMetadata st) as Hsl
    by (unfold socket_leave; by destruct (sids st !! s)).
  destruct (JsMap.get (documentUsers (socket_leave s d st)) d);
    [destruct (decide _) |]; simpl; by rewrite Hsl.
Qed.

(** X8: leave-document deletes the sender's identity whatever document
    it names, a document the socket never joined included.  The socket
    stays a member of the rooms of other documents, but from then on its
    cursor-move events are dropped and its ai-generate events are refused
    as unauthenticated; the identities of other sockets are untouched. *)
Theorem leave_document_drops_identity st s d :
  userMetadata (handle st (LeaveDocument s d)).1 !! s = None
  ∧ (∀ t, t ≠ s →
       userMetadata (handle st (LeaveDocument s d)).1 !! t
       = userMetadata st !! t)
  ∧ (∀ d', d' ≠ d → registered st d' s →
       registered (handle st (LeaveDocument s d)).1 d' s)
  ∧ (∀ docId position selection,
       (handle (handle st (LeaveDocument s d)).1
          (CursorMove s docId position selection)).2 = [])
  ∧ (∀ rq now,
       handle (handle st (LeaveDocument s d)).1 (AiGenerate s rq now)
       = ((handle st (LeaveDocument s d)).1,
          [Emit (to_socket s) (ai_error "User not authenticated")])).
Proof.
  cbn [handle].
  assert (userMetadata (leave_document st s d).1 !! s = None) as Hnone
    by (rewrite userMetadata_leave_document; apply lookup_delete_eq).
  split_and!.
  - done.
  - intros t Hne. rewrite userMetadata_leave_document.
    by apply lookup_delete_ne.
  - intros d' Hne [us [Hus Hs]]. exists us. split; [| done].
    unfold leave_document. rewrite documentUsers_socket_leave.
    destruct (JsMap.get (documentUsers st) d) as [users |];
      [destruct (decide _) |]; simpl;
      rewrite ?documentUsers_socket_leave;
      rewrite ?JsMap_get_delete_ne, ?JsMap_get_set_ne by done; done.
  - intros docId position selection. unfold cursor_move. by rewrite Hnone.
  - intros rq now. by apply ai_generate_unauthenticated.
Qed.

Lemma user_list_ids meta members :
  ue_socketId <$> user_list meta members
  = filter (λ t, is_Some (meta !! t)) members.
Proof.
  unfold user_list. induction members as [| t members IH]; [done |].
  csimpl. destruct (meta !! t) as [m |] eqn:E.
  - rewrite filter_cons_True by (by rewrite E). csimpl. by rewrite IH.
  - rewrite filter_cons_False by (rewrite E; by intros [? ?]). done.
Qed.

Lemma user_list_entries meta members e :
  e ∈ user_list meta members →
  ue_socketId e ∈ members
  ∧ ∃ m, meta !! ue_socketId e = Some m
         ∧ ue_username e = username m ∧ ue_color e = color m.
Proof.
  unfold user_list. intros (t & Ht & He)%list_elem_of_omap.
  destruct (meta !! t) as [m |] eqn:E; [| done].
  injection He as <-. simpl. eauto.
Qed.

(** X9: set-user-identity stores the identity under the sender's socket
    id, replacing any earlier one, whether or not the sender has joined
    the document it names.  The users-update it broadcasts to that
    document's room lists, in the order they joined, exactly the members
    of the room that have an identity, each with the name and colour
    stored for it; the sender is listed with the new name and colour when
    it is a member. *)
Theorem set_user_identity_broadcast st s d uname ucolor :
  userMetadata (handle st (SetUserIdentity s d uname ucolor)).1 !! s
  = Some {| username := uname; color := ucolor; documentId := d |}
  ∧ ∃ users,
      (handle st (SetUserIdentity s d uname ucolor)).2
      = [Emit (io_to d) (users_update users)]
      ∧ ue_socketId <$> users
        = filter
            (λ t, is_Some
                    (userMetadata
                       (handle st (SetUserIdentity s d uname ucolor)).1 !! t))
            (default [] (JsMap.get (documentUsers st) d))
      ∧ (∀ e, e ∈ users →
           ∃ m, userMetadata
                  (handle st (SetUserIdentity s d uname ucolor)).1
                  !! ue_socketId e = Some m
                ∧ ue_username e = username m ∧ ue_color e = color m)
      ∧ (registered st d s →
         {| ue_socketId := s; ue_username := uname; ue_color := ucolor |}
         ∈ users).
Proof.
  cbn [handle]. unfold set_user_identity. cbn [fst snd userMetadata
    with_userMetadata documentUsers].
  split; [apply lookup_insert_eq |].
  eexists. split; [done |]. split_and!.
  - apply user_list_ids.
  - intros e He. by apply user_list_entries in He as [_ He].
  - intros [us [Hus Hs]]. rewrite Hus. simpl.
    unfold user_list. apply list_elem_of_omap. exists s. split; [done |].
    by rewrite lookup_insert_eq.
Qed.

Lemma set_user_identity_broadcast_witness :
  {| ue_socketId := "A"; ue_username := "alice"; ue_color := "red" |}
  ∈ user_list
      (userMetadata
         (handle
            (run (initial true {[ "D1" := Some "" ]})
               [Connect "A"; Connect "B"; JoinDocument "B" "D1" 1;
                JoinDocument "A" "D1" 2]).1
            (SetUserIdentity "A" "D1" "alice" "red")).1)
      ["B"; "A"].
Proof.
  destruct (set_user_identity_broadcast
              (run (initial true {[ "D1" := Some "" ]})
                 [Connect "A"; Connect "B"; JoinDocument "B" "D1" 1;
                  JoinDocument "A" "D1" 2]).1
              "A" "D1" "alice" "red") as (_ & users & Heff & _ & _ & H).
  injection Heff as <-. apply H.
  exists ["B"; "A"]. split; [reflexivity | compute_done].
Defined.

(** ** Buckets *)

Lemma checkRateLimit_buckets_ok svc userId now :
  buckets_ok svc → buckets_ok (checkRateLimit svc userId now).2.
Proof.
  unfold buckets_ok, checkRateLimit, MAX_REQUESTS_PER_MINUTE.
  intros Hok u l.
  destruct (rateLimits svc !! userId) as [userLimit |] eqn:E; simpl.
  - destruct (decide (now > resetTime userLimit)%Z); simpl.
    + destruct (decide (userId = u)) as [-> | Hne].
      * rewrite lookup_insert_eq. intros [= <-]. simpl. lia.
      * rewrite lookup_insert_ne by done. apply Hok.
    + destruct (decide (count userLimit >= 10)%Z); simpl; [apply Hok |].
      destruct (decide (userId = u)) as [-> | Hne].
      * rewrite lookup_insert_eq. intros [= <-]. simpl.
        specialize (Hok u userLimit E). lia.
      * rewrite lookup_insert_ne by done. apply Hok.
  - destruct (decide (userId = u)) as [-> | Hne].
    + rewrite lookup_insert_eq. intros [= <-]. simpl. lia.
    + rewrite lookup_insert_ne by done. apply Hok.
Qed.

Lemma cleanupRateLimits_buckets_ok svc now :
  buckets_ok svc → buckets_ok (cleanupRateLimits svc now).
Proof.
  unfold buckets_ok. intros Hok u l. rewrite cleanupRateLimits_lookup.
  destruct (rateLimits svc !! u) as [l' |] eqn:E; [| done].
  destruct (decide (now > resetTime l')%Z); [done |].
  intros [= <-]. by apply (Hok u).
Qed.

Lemma aiService_leave_previous_rooms s st :
  aiService (leave_previous_rooms s st) = aiService st.
Proof.
  unfold leave_previous_rooms. generalize (socket_rooms st s) as rooms.
  intros rooms. revert st.
  induction rooms as [| room rooms IH]; intros st; simpl; [done |].
  rewrite IH. unfold leave_previous_room.
  destruct (decide (room ≠ s)); [| done].
  assert (aiService (socket_leave s room st) = aiService st) as Hsl
    by (unfold socket_leave; by destruct (sids st !! s)).
  destruct (JsMap.get (documentUsers (socket_leave s room st)) room);
    [| done].
  by destruct (decide _).
Qed.

(** The service state after each handler: only ai-generate and the
    periodic cleanup touch it. *)
Lemma aiService_handle st ev :
  aiService (handle st ev).1
  = match ev, aiService st with
    | AiGenerate s rq now, Some svc =>
        match userMetadata st !! s with
        | Some _ => Some (checkRateLimit svc s now).2
        | None => Some svc
        end
    | CleanupTick now, Some svc => Some (cleanupRateLimits svc now)
    | _, a => a
    end.
Proof.
  destruct ev; simpl.
  - unfold connect. destruct (sids st !! s); first [done | by destruct (aiService st)].
  - unfold join_document. set (st0 := leave_previous_rooms s st).
    set (st3 := with_documentUsers _ _).
    assert (aiService st3 = aiService st) as H3.
    { unfold st3. transitivity (aiService st0).
      - by destruct (JsMap.has _ _).
      - apply aiService_leave_previous_rooms. }
    assert (aiService (getDocumentState st3 docId now).2 = aiService st3)
      as Hg.
    { unfold getDocumentState.
      by destruct (documentCache st3 !! docId), (documents st3 !! docId). }
    destruct (getDocumentState st3 docId now) as [state st4].
    cbn [fst snd] in *. by rewrite Hg, H3.
  - destruct (documentCache st !! docId) as [state |] eqn:Hc.
    + rewrite (send_changes_cached _ _ _ _ _ _ Hc). simpl.
      first [done | by destruct (aiService st)].
    + destruct (documents st !! docId) as [dc |] eqn:Hd.
      * rewrite (send_changes_hydrated _ _ _ _ _ _ Hc Hd). simpl.
        first [done | by destruct (aiService st)].
      * rewrite (send_changes_not_found _ _ _ _ _ Hc Hd). simpl.
        first [done | by destruct (aiService st)].
  - unfold request_sync, getDocumentState.
    destruct (documentCache st !! docId), (documents st !! docId);
      simpl; first [done | by destruct (aiService st)].
  - first [done | by destruct (aiService st)].
  - unfold cursor_move.
    destruct (userMetadata st !! s); first [done | by destruct (aiService st)].
  - unfold ai_generate, generateCodeStream.
    destruct (aiService st) as [svc |] eqn:Ha.
    + destruct (userMetadata st !! s); [| done].
      destruct (checkRateLimit svc s now) as [[] svc']; done.
    + by destruct (userMetadata st !! s).
  - unfold ai_resume. destruct (generators st !! k) as [s |];
      [destruct item |]; simpl; first [done | by destruct (aiService st)].
  - rewrite aiService_disconnect. first [done | by destruct (aiService st)].
  - unfold leave_document.
    assert (aiService (socket_leave s docId st) = aiService st) as Hsl
      by (unfold socket_leave; by destruct (sids st !! s)).
    destruct (JsMap.get (documentUsers (socket_leave s docId st)) docId);
      [destruct (decide _) |]; simpl; rewrite Hsl; first [done | by destruct (aiService st)].
  - unfold cleanup_tick. destruct (aiService st) eqn:Ha; simpl; by rewrite ?Ha.
  - unfold store_written.
    destruct (documents st !! docId); simpl; first [done | by destruct (aiService st)].
Qed.

(** X10: in every state the server reaches, every rate-limit bucket has
    a count between 1 and the ceiling of 10: a refused request is never
    counted, and no sequence of events pushes a count over the ceiling. *)
Theorem buckets_within_ceiling ai docs evs s l :
  bucket (run (initial ai docs) evs).1 s = Some l →
  (1 ≤ count l ≤ 10)%Z.
Proof.
  assert (∀ st, (∀ svc, aiService st = Some svc → buckets_ok svc) →
                ∀ svc, aiService (run st evs).1 = Some svc → buckets_ok svc)
    as H.
  { induction evs as [| ev evs IH]; intros st Hok; simpl; [done |].
    pose proof (aiService_handle st ev) as Ha.
    destruct (handle st ev) as [st' eff]. simpl in *.
    specialize (IH st').
    destruct (run st' evs) as [st'' effs]. simpl in *.
    apply IH. intros svc' Hsvc'. rewrite Hsvc' in Ha.
    destruct ev; try (by apply Hok).
    - destruct (aiService st) as [svc |]; [| done].
      destruct (userMetadata st !! s0); injection Ha as ->;
        [apply checkRateLimit_buckets_ok |]; by apply Hok.
    - destruct (aiService st) as [svc |]; [| done]. injection Ha as ->.
      apply cleanupRateLimits_buckets_ok. by apply Hok. }
  unfold bucket. intros Hb.
  destruct (aiService (run (initial ai docs) evs).1) as [svc |] eqn:E;
    [| done].
  apply (H (initial ai docs)) in E; [by apply (E s l) |].
  intros svc0. destruct ai; simpl; [| done].
  intros [= <-]. unfold buckets_ok. simpl. intros u l0.
  by rewrite lookup_empty.
Qed.

Lemma buckets_within_ceiling_witness :
  bucket
    (run (initial true ∅)
       ([Connect "A"; SetUserIdentity "A" "D1" "alice" "red"]
        ++ ai_requests "A"
             (replicate 12
                ({| rq_documentId := "D1"; rq_code := "x";
                    rq_language := "js"; rq_cursorPosition := "";
                    rq_userPrompt := ""; rq_action := None |}, 5%Z)))).1 "A"
  = Some {| count := 10; resetTime := 60005 |}
  ∧ (1 ≤ 10 ≤ 10)%Z.
Proof.
  assert (bucket
            (run (initial true ∅)
               ([Connect "A"; SetUserIdentity "A" "D1" "alice" "red"]
                ++ ai_requests "A"
                     (replicate 12
                        ({| rq_documentId := "D1"; rq_code := "x";
                            rq_language := "js"; rq_cursorPosition := "";
                            rq_userPrompt := ""; rq_action := None |},
                         5%Z)))).1 "A"
          = Some {| count := 10; resetTime := 60005 |}) as H
    by (vm_compute; reflexivity).
  split; [exact H |].
  exact (buckets_within_ceiling true ∅ _ "A" _ H).
Defined.

Lemma checkRateLimit_other_users svc userId now other :
  other ≠ userId →
  rateLimits (checkRateLimit svc userId now).2 !! other
  = rateLimits svc !! other.
Proof.
  intros Hne. unfold checkRateLimit.
  destruct (rateLimits svc !! userId) as [userLimit |]; simpl.
  - destruct (decide (now > resetTime userLimit)%Z); simpl;
      [by rewrite lookup_insert_ne |].
    destruct (decide (count userLimit >= MAX_REQUESTS_PER_MINUTE)%Z); simpl;
      [done | by rewrite lookup_insert_ne].
  - by rewrite lookup_insert_ne.
Qed.

(** X11: a connection's rate-limit budget is spent by its own requests
    only.  Over any run of events in which socket [s] sends no
    ai-generate, and between two cleanup ticks, the bucket of [s] stays
    as it was, however many requests other connections make. *)
Theorem bucket_only_own_requests evs : ∀ st s,
  Forall (λ ev, match ev with
                | AiGenerate t _ _ => t ≠ s
                | CleanupTick _ => False
                | _ => True
                end) evs →
  bucket (run st evs).1 s = bucket st s.
Proof.
  induction evs as [| ev evs IH]; intros st s Hall; simpl; [done |].
  apply Forall_cons in Hall as [Hev Hall].
  pose proof (aiService_handle st ev) as Ha.
  destruct (handle st ev) as [st' eff]. simpl in *.
  specialize (IH st' s Hall).
  destruct (run st' evs) as [st'' effs]. simpl in *.
  rewrite IH. unfold bucket. rewrite Ha.
  destruct ev; try done.
  destruct (aiService st) as [svc |]; [| done].
  destruct (userMetadata st !! s0); [| done].
  by apply checkRateLimit_other_users.
Qed.

Lemma bucket_only_own_requests_witness :
  bucket
    (run
       (run (initial true ∅)
          [Connect "A"; Connect "B"; SetUserIdentity "A" "D1" "alice" "red";
           SetUserIdentity "B" "D1" "bob" "blue";
           AiGenerate "A"
             {| rq_documentId := "D1"; rq_code := "x"; rq_language := "js";
                rq_cursorPosition := ""; rq_userPrompt := "";
                rq_action := None |} 7]).1
       (ai_requests "B"
          (replicate 11
             ({| rq_documentId := "D1"; rq_code := "x"; rq_language := "js";
                 rq_cursorPosition := ""; rq_userPrompt := "";
                 rq_action := None |}, 8%Z)))).1 "A"
  = Some {| count := 1; resetTime := 60007 |}.
Proof.
  etrans.
  - apply (bucket_only_own_requests
             (ai_requests "B"
                (replicate 11
                   ({| rq_documentId := "D1"; rq_code := "x";
                       rq_language := "js"; rq_cursorPosition := "";
                       rq_userPrompt := ""; rq_action := None |}, 8%Z)))).
    repeat constructor; discriminate.
  - vm_compute. reflexivity.
Defined.

(** X12: the periodic cleanup is invisible to the limiter.  For a check
    made no earlier than the cleanup, the answer and the bucket it leaves
    are the same whether or not the cleanup ran: the buckets it deletes
    are those a check would have reset anyway. *)
Theorem cleanup_keeps_decisions svc userId cleaned now :
  (cleaned ≤ now)%Z →
  (checkRateLimit (cleanupRateLimits svc cleaned) userId now).1
  = (checkRateLimit svc userId now).1
  ∧ rateLimits (checkRateLimit (cleanupRateLimits svc cleaned) userId now).2
      !! userId
    = rateLimits (checkRateLimit svc userId now).2 !! userId.
Proof.
  intros Hle. unfold checkRateLimit at 1 3.
  rewrite cleanupRateLimits_lookup. unfold checkRateLimit.
  destruct (rateLimits svc !! userId) as [l |] eqn:E.
  - destruct (decide (cleaned > resetTime l)%Z) as [Hgt | Hngt].
    + rewrite decide_True by lia. cbn [fst snd rateLimits]. by rewrite !lookup_insert_eq.
    + destruct (decide (now > resetTime l)%Z); cbn [fst snd rateLimits];
        [by rewrite !lookup_insert_eq |].
      destruct (decide (count l >= MAX_REQUESTS_PER_MINUTE)%Z); cbn [fst snd rateLimits].
      * by rewrite cleanupRateLimits_lookup, E, decide_False.
      * by rewrite !lookup_insert_eq.
  - cbn [fst snd rateLimits]. by rewrite !lookup_insert_eq.
Qed.

Lemma cleanup_keeps_decisions_witness :
  (checkRateLimit
     (cleanupRateLimits
        {| rateLimits := {[ "A" := {| count := 10; resetTime := 100 |} ]} |}
        300) "A" 400).1
  = true.
Proof.
  destruct (cleanup_keeps_decisions
              {| rateLimits := {[ "A" := {| count := 10; resetTime := 100 |} ]} |}
              "A" 300 400) as [H _]; [lia |].
  rewrite H. reflexivity.
Defined.

(** ** What a disconnect tells the rooms *)

Lemma disconnect_rooms_targets s hasMeta meta entries cache eff :
  eff ∈ (disconnect_rooms s hasMeta meta entries cache).2 →
  ∃ d users m, eff = Emit (io_to d) m ∧ (d, users) ∈ entries ∧ s ∈ users
               ∧ (m = cursor_remove s → hasMeta = true).
Proof.
  revert cache.
  induction entries as [| [k us] rest IH]; intros cache; simpl.
  - intros H. by apply not_elem_of_nil in H.
  - assert (∀ c, eff ∈ (disconnect_rooms s hasMeta meta rest c).2 →
              ∃ d users m, eff = Emit (io_to d) m
                ∧ (d, users) ∈ (k, us) :: rest ∧ s ∈ users
                ∧ (m = cursor_remove s → hasMeta = true)) as IH'.
    { intros c Hc. destruct (IH c Hc) as (d & users & m & -> & Hin & Hs & Hm).
      exists d, users, m. split_and!; [done | by right | done | done]. }
    destruct (JsSet.has us s) eqn:Hhas.
    + apply JsSet_has_true in Hhas.
      assert (∀ effs,
                eff ∈ ([Emit (io_to k) (user_count_update
                                          (JsSet.size (JsSet.delete us s)));
                        Emit (io_to k)
                          (users_update (user_list meta (JsSet.delete us s)))]
                       ++ (if hasMeta then [Emit (io_to k) (cursor_remove s)]
                           else [])) ++ effs →
                (eff ∈ effs → ∃ d users m, eff = Emit (io_to d) m
                   ∧ (d, users) ∈ (k, us) :: rest ∧ s ∈ users
                   ∧ (m = cursor_remove s → hasMeta = true)) →
                ∃ d users m, eff = Emit (io_to d) m
                  ∧ (d, users) ∈ (k, us) :: rest ∧ s ∈ users
                  ∧ (m = cursor_remove s → hasMeta = true)) as Hhead.
      { intros effs Hin Hrest.
        apply elem_of_app in Hin as [Hin | Hin]; [| by apply Hrest].
        apply elem_of_app in Hin as [Hin | Hin].
        - exists k, us. apply elem_of_cons in Hin as [-> | Hin].
          + eexists. split_and!; [done | left | done | done].
          + apply list_elem_of_singleton in Hin as ->.
            eexists. split_and!; [done | left | done | done].
        - destruct hasMeta; [| by apply not_elem_of_nil in Hin].
          apply list_elem_of_singleton in Hin as ->.
          exists k, us. eexists. split_and!; [done | left | done | done]. }
      destruct (decide (JsSet.size (JsSet.delete us s) = 0%Z)).
      * specialize (IH' (delete k cache)).
        destruct (disconnect_rooms s hasMeta meta rest (delete k cache))
          as [[rest' cache'] eff']. simpl in *.
        intros Hin. by apply (Hhead eff').
      * specialize (IH' cache).
        destruct (disconnect_rooms s hasMeta meta rest cache)
          as [[rest' cache'] eff']. simpl in *.
        intros Hin. by apply (Hhead eff').
    + specialize (IH' cache).
      destruct (disconnect_rooms s hasMeta meta rest cache)
        as [[rest' cache'] eff']. simpl in *. done.
Qed.

Lemma disconnect_rooms_notifies s hasMeta meta entries cache d users :
  (d, users) ∈ entries → s ∈ users →
  Emit (io_to d) (user_count_update (JsSet.size (JsSet.delete users s)))
    ∈ (disconnect_rooms s hasMeta meta entries cache).2
  ∧ Emit (io_to d) (users_update (user_list meta (JsSet.delete users s)))
      ∈ (disconnect_rooms s hasMeta meta entries cache).2
  ∧ (hasMeta = true →
     Emit (io_to d) (cursor_remove s)
       ∈ (disconnect_rooms s hasMeta meta entries cache).2).
Proof.
  intros Hin Hs. revert cache.
  induction entries as [| [k us] rest IH]; intros cache;
    [by apply not_elem_of_nil in Hin |].
  apply elem_of_cons in Hin as [[= <- <-] | Hin].
  - simpl. apply JsSet_has_true in Hs. rewrite Hs.
    destruct (decide (JsSet.size (JsSet.delete users s) = 0%Z)).
    + destruct (disconnect_rooms s hasMeta meta rest (delete d cache))
        as [[rest' cache'] eff']. simpl. split_and!.
      * left.
      * right. left.
      * intros ->. right. right. left.
    + destruct (disconnect_rooms s hasMeta meta rest cache)
        as [[rest' cache'] eff']. simpl. split_and!.
      * left.
      * right. left.
      * intros ->. right. right. left.
  - simpl. destruct (JsSet.has us s).
    + destruct (decide (JsSet.size (JsSet.delete us s) = 0%Z)).
      * specialize (IH Hin (delete k cache)).
        destruct (disconnect_rooms s hasMeta meta rest (delete k cache))
          as [[rest' cache'] eff']. simpl in *.
        destruct IH as (H1 & H2 & H3).
        split_and!; [| | intros Hm; specialize (H3 Hm)];
          do 2 right; apply elem_of_app; by right.
      * specialize (IH Hin cache).
        destruct (disconnect_rooms s hasMeta meta rest cache)
          as [[rest' cache'] eff']. simpl in *.
        destruct IH as (H1 & H2 & H3).
        split_and!; [| | intros Hm; specialize (H3 Hm)];
          do 2 right; apply elem_of_app; by right.
    + specialize (IH Hin cache).
      by destruct (disconnect_rooms s hasMeta meta rest cache)
        as [[rest' cache'] eff'].
Qed.

(** X13: a disconnect notifies exactly the rooms the socket was a member
    of.  Every emit of the handler is a room broadcast to such a room;
    each such room is told the number of members that remain and their
    list; cursor-remove is sent to these rooms when the socket had an
    identity and to no room when it had none. *)
Theorem disconnect_notifies_own_rooms st s :
  rooms_ok st →
  (∀ eff, eff ∈ (handle st (Disconnect s)).2 →
     ∃ d m, eff = Emit (io_to d) m ∧ registered st d s
            ∧ (m = cursor_remove s → is_Some (userMetadata st !! s)))
  ∧ (∀ d users,
       JsMap.get (documentUsers st) d = Some users → s ∈ users →
       Emit (io_to d) (user_count_update (JsSet.size (JsSet.delete users s)))
         ∈ (handle st (Disconnect s)).2
       ∧ Emit (io_to d)
           (users_update (user_list (userMetadata st) (JsSet.delete users s)))
           ∈ (handle st (Disconnect s)).2
       ∧ (is_Some (userMetadata st !! s) →
          Emit (io_to d) (cursor_remove s) ∈ (handle st (Disconnect s)).2)).
Proof.
  intros [Hnd _]. cbn [handle]. unfold disconnect. simpl.
  set (hasMeta := match userMetadata st !! s with Some _ => true | None => false end).
  assert (hasMeta = true ↔ is_Some (userMetadata st !! s)) as Hmeta.
  { unfold hasMeta. destruct (userMetadata st !! s); split;
      first [done | by eexists | by intros [? ?]]. }
  pose proof (disconnect_rooms_targets s hasMeta (userMetadata st)
                (documentUsers st) (documentCache st)) as Ht.
  pose proof (disconnect_rooms_notifies s hasMeta (userMetadata st)
                (documentUsers st) (documentCache st)) as Hn.
  destruct (disconnect_rooms _ _ _ _ _) as [[users' cache'] effs].
  simpl in *. split.
  - intros eff Hin.
    destruct (Ht eff Hin) as (d & users & m & -> & Hd & Hs & Hm).
    exists d, m. split_and!; [done | | by rewrite <- Hmeta].
    exists users. split; [by apply JsMap_elem_of_get | done].
  - intros d users Hu Hs.
    destruct (Hn d users (JsMap_get_elem_of _ _ _ Hu) Hs) as (H1 & H2 & H3).
    split_and!; [done | done |]. by rewrite <- Hmeta.
Qed.

Lemma disconnect_notifies_own_rooms_witness :
  Emit (io_to "D1") (user_count_update 1)
  ∈ (handle
       (run (initial true {[ "D1" := Some "" ]})
          [Connect "A"; Connect "B"; JoinDocument "A" "D1" 1;
           JoinDocument "B" "D1" 2]).1
       (Disconnect "A")).2.
Proof.
  destruct (disconnect_notifies_own_rooms
              (run (initial true {[ "D1" := Some "" ]})
                 [Connect "A"; Connect "B"; JoinDocument "A" "D1" 1;
                  JoinDocument "B" "D1" 2]).1 "A") as [_ H].
  - unfold rooms_ok, registry_ok. compute_done.
  - destruct (H "D1" ["A"; "B"]) as (H1 & _); [reflexivity | compute_done |].
    exact H1.
Defined.

(** ** Streams *)

(** X14: the chunks of a generation stream reach the requesting socket
    in the order the backend produced them, one ai-chunk each, and the end
    of the stream adds a single ai-complete and retires the handler; all
    of it is addressed to the socket that asked and to no one else. *)
Theorem stream_in_order chunks : ∀ st k s,
  generators st !! k = Some s →
  (run st (chunk_events k chunks ++ [Backend k StreamEnd])).2
  = ((λ text, [Emit (to_socket s) (ai_chunk text)]) <$> chunks)
    ++ [[Emit (to_socket s) ai_complete]]
  ∧ generators (run st (chunk_events k chunks ++ [Backend k StreamEnd])).1
    = delete k (generators st).
Proof.
  induction chunks as [| text chunks IH]; intros st k s Hk.
  - simpl. unfold ai_resume. rewrite Hk. done.
  - cbn [chunk_events fmap list_fmap app run handle].
    fold (chunk_events k chunks).
    assert (ai_resume st k (Chunk text)
            = (st, [Emit (to_socket s) (ai_chunk text)])) as ->
      by (unfold ai_resume; by rewrite Hk).
    destruct (IH st k s Hk) as [H1 H2].
    destruct (run st (chunk_events k chunks ++ [Backend k StreamEnd]))
      as [st' effs]. simpl in *. by rewrite H1, H2.
Qed.

Lemma stream_in_order_witness :
  (run
     (run (initial true ∅)
        [Connect "A"; SetUserIdentity "A" "D1" "alice" "red";
         AiGenerate "A"
           {| rq_documentId := "D1"; rq_code := "x"; rq_language := "js";
              rq_cursorPosition := ""; rq_userPrompt := "";
              rq_action := None |} 7]).1
     (chunk_events 0 ["le"; "t x"] ++ [Backend 0 StreamEnd])).2
  = [[Emit (to_socket "A") (ai_chunk "le")];
     [Emit (to_socket "A") (ai_chunk "t x")];
     [Emit (to_socket "A") ai_complete]].
Proof.
  destruct (stream_in_order ["le"; "t x"]
              (run (initial true ∅)
                 [Connect "A"; SetUserIdentity "A" "D1" "alice" "red";
                  AiGenerate "A"
                    {| rq_documentId := "D1"; rq_code := "x";
                       rq_language := "js"; rq_cursorPosition := "";
                       rq_userPrompt := ""; rq_action := None |} 7]).1
              0%nat "A") as [H _]; [reflexivity |].
  exact H.
Defined.

(** ** The prompt *)

Lemma string_app_assoc (a b c : string) : (a +:+ b) +:+ c = a +:+ (b +:+ c).
Proof.
  induction a as [| x a IH]; [done |].
  change (String x ((a +:+ b) +:+ c) = String x (a +:+ (b +:+ c))).
  by f_equal.
Qed.

Lemma split_lines_nonempty s : split_lines s ≠ [].
Proof.
  destruct s as [| c r]; simpl; [done |].
  destruct (decide (c = newline)); [done |]. by destruct (split_lines r).
Qed.

Lemma join_lines_cons x r :
  r ≠ [] → join_lines (x :: r) = x +:+ nl +:+ join_lines r.
Proof. by destruct r. Qed.

Lemma join_split_lines s : join_lines (split_lines s) = s.
Proof.
  induction s as [| c r IH]; [done |]. simpl split_lines.
  destruct (decide (c = newline)) as [-> | Hne].
  - rewrite join_lines_cons by apply split_lines_nonempty. by rewrite IH.
  - pose proof (split_lines_nonempty r) as Hr.
    destruct (split_lines r) as [| h t]; [done |].
    destruct t as [| h' t]; simpl in *; by rewrite <- IH.
Qed.

Lemma join_lines_app l1 l2 :
  l1 ≠ [] → l2 ≠ [] →
  join_lines (l1 ++ l2) = join_lines l1 +:+ nl +:+ join_lines l2.
Proof.
  intros H1 H2. induction l1 as [| x l1 IH]; [done |].
  destruct l1 as [| y l1].
  - simpl app. by rewrite join_lines_cons.
  - rewrite <- app_comm_cons.
    rewrite join_lines_cons by done. rewrite IH by done.
    rewrite (join_lines_cons x (y :: l1)) by done.
    by rewrite !string_app_assoc.
Qed.

Lemma slice_to n l :
  slice (Some 0%Z) (Some n) l = take (relative_index n (length l)) l.
Proof.
  unfold slice. replace (relative_index 0 (length l)) with 0%nat
    by (unfold relative_index; rewrite decide_False by lia; simpl; lia).
  by rewrite Nat.sub_0_r, drop_0.
Qed.

Lemma relative_index_le n len : (relative_index n len ≤ len)%nat.
Proof. unfold relative_index. destruct (decide (n < 0)%Z); lia. Qed.

Lemma slice_from n l :
  slice (Some n) None l = drop (relative_index n (length l)) l.
Proof.
  unfold slice. apply take_ge. rewrite length_drop. lia.
Qed.

(** X15: where [buildPrompt] cuts the code.  With an integer cursor line
    the two parts are the lines before and from the cursor position read
    the way [slice] reads it (negative counts from the end, clamped), and
    they always make up the code again: joined by one newline when both
    hold lines, otherwise one of them is the whole code and the other is
    empty.  Without a cursor position the whole code comes before the
    cursor.  With a cursor object that has no line number both parts are
    the whole code. *)
Theorem prompt_parts_make_up_code data :
  (∀ n, pd_cursorPosition data = Some (Some n) →
     let k := relative_index n (length (prompt_lines data)) in
     (k = 0%nat →
      beforeCursor data = "" ∧ afterCursor data = default "" (pd_code data))
     ∧ (k = length (prompt_lines data) →
        beforeCursor data = default "" (pd_code data) ∧ afterCursor data = "")
     ∧ ((0 < k < length (prompt_lines data))%nat →
        default "" (pd_code data)
        = beforeCursor data +:+ nl +:+ afterCursor data))
  ∧ (pd_cursorPosition data = None →
     beforeCursor data = default "" (pd_code data) ∧ afterCursor data = "")
  ∧ (pd_cursorPosition data = Some None →
     beforeCursor data = default "" (pd_code data)
     ∧ afterCursor data = default "" (pd_code data)).
Proof.
  assert (join_lines (prompt_lines data) = default "" (pd_code data)) as Hjoin
    by apply join_split_lines.
  split_and!.
  - intros n Hn k. unfold beforeCursor, afterCursor, cursorLine.
    rewrite Hn, slice_to, slice_from. fold k. split_and!.
    + intros ->. by rewrite take_0, drop_0.
    + intros Hk. rewrite take_ge, drop_ge by lia. done.
    + intros Hk. rewrite <- Hjoin.
      rewrite <- (take_drop k (prompt_lines data)) at 1.
      apply join_lines_app.
      * intros Hnil. apply (f_equal length) in Hnil.
        rewrite length_take in Hnil. simpl in Hnil. lia.
      * intros Hnil. apply (f_equal length) in Hnil.
        rewrite length_drop in Hnil. simpl in Hnil. lia.
  - intros Hn. unfold beforeCursor, afterCursor, cursorLine.
    rewrite Hn, slice_to, slice_from.
    replace (relative_index _ _) with (length (prompt_lines data))
      by (unfold relative_index; rewrite decide_False by lia; lia).
    by rewrite take_ge, drop_ge by lia.
  - intros Hn. unfold beforeCursor, afterCursor, cursorLine, slice.
    rewrite Hn. replace (relative_index 0 _) with 0%nat
      by (unfold relative_index; rewrite decide_False by lia; simpl; lia).
    rewrite Nat.sub_0_r, drop_0, take_ge by lia. done.
Qed.

Lemma prompt_parts_make_up_code_witness :
  "a" +:+ nl +:+ "b" +:+ nl +:+ "c"
  = beforeCursor
      {| pd_code := Some ("a" +:+ nl +:+ "b" +:+ nl +:+ "c");
         pd_language := None; pd_cursorPosition := Some (Some (-1)%Z);
         pd_userPrompt := None; pd_action := None |}
    +:+ nl
    +:+ afterCursor
          {| pd_code := Some ("a" +:+ nl +:+ "b" +:+ nl +:+ "c");
             pd_language := None; pd_cursorPosition := Some (Some (-1)%Z);
             pd_userPrompt := None; pd_action := None |}.
Proof.
  destruct (prompt_parts_make_up_code
              {| pd_code := Some ("a" +:+ nl +:+ "b" +:+ nl +:+ "c");
                 pd_language := None; pd_cursorPosition := Some (Some (-1)%Z);
                 pd_userPrompt := None; pd_action := None |}) as (H & _).
  destruct (H (-1)%Z eq_refl) as (_ & _ & H3).
  apply H3. vm_compute. lia.
Defined.

(** X16: in completion mode the text from the cursor line on is not put
    into the prompt.  Two requests for a completion (action missing or
    "complete") with the same language and user prompt and the same cursor
    line n >= 0, whose codes have the same first n lines, get the same
    prompt. *)
Theorem completion_ignores_text_after_cursor data1 data2 n :
  (pd_action data1 = None ∨ pd_action data1 = Some "complete") →
  (pd_action data2 = None ∨ pd_action data2 = Some "complete") →
  pd_language data1 = pd_language data2 →
  pd_userPrompt data1 = pd_userPrompt data2 →
  pd_cursorPosition data1 = Some (Some n) →
  pd_cursorPosition data2 = Some (Some n) →
  (0 ≤ n)%Z →
  take (Z.to_nat n) (prompt_lines data1) = take (Z.to_nat n) (prompt_lines data2) →
  buildPrompt data1 = buildPrompt data2.
Proof.
  intros Ha1 Ha2 Hl Hu Hc1 Hc2 Hn Htake.
  assert (∀ data, pd_cursorPosition data = Some (Some n) →
            beforeCursor data = join_lines (take (Z.to_nat n) (prompt_lines data)))
    as Hbefore.
  { intros data Hc. unfold beforeCursor, cursorLine. rewrite Hc, slice_to.
    unfold relative_index. rewrite decide_False by lia.
    destruct (Nat.min_spec (Z.to_nat n) (length (prompt_lines data)))
      as [[_ ->] | [Hle ->]]; [done |].
    by rewrite !take_ge by lia. }
  assert (default "complete" (pd_action data1) = "complete") as Hact1
    by (by destruct Ha1 as [-> | ->]).
  assert (default "complete" (pd_action data2) = "complete") as Hact2
    by (by destruct Ha2 as [-> | ->]).
  unfold buildPrompt.
  rewrite Hact1, Hact2, (Hbefore data1 Hc1), (Hbefore data2 Hc2), Hl, Hu, Htake.
  rewrite !(decide_True (P := "complete" = "complete")) by done.
  rewrite !(decide_False (P := _ ∧ "complete" ≠ "complete")) by tauto.
  done.
Qed.

Lemma completion_ignores_text_after_cursor_witness :
  buildPrompt
    {| pd_code := Some ("let x = 1;" +:+ nl +:+ "let y = 2;");
       pd_language := Some "javascript"; pd_cursorPosition := Some (Some 1%Z);
       pd_userPrompt := None; pd_action := Some "complete" |}
  = buildPrompt
      {| pd_code := Some ("let x = 1;" +:+ nl +:+ "console.log(x);" +:+ nl);
         pd_language := Some "javascript"; pd_cursorPosition := Some (Some 1%Z);
         pd_userPrompt := None; pd_action := None |}.
Proof.
  apply (completion_ignores_text_after_cursor _ _ 1%Z);
    first [by right | by left | reflexivity | lia].
Defined.
